(** * neo4j-presentation: the five demo queries of [demo/query.py]

    The script runs five fixed Cypher queries through a Neo4j session and
    turns each response into a polars table.  The development below embeds

    - the property graph the queries are written against (labels [Person],
      [City], [State], [Country], [Interest]; typed relationships);
    - the meaning of each query text: pattern matching with Cypher's
      relationship uniqueness, [WHERE], grouping aggregation,
      [ORDER BY ... LIMIT];
    - the Python around it: [session.run], [pl.from_dicts], the sequence of
      calls in [main] and the exit status of the process.

    Modelling choices, all stated where they are made: property values are
    typed as the queries use them (an integer [age], string names);
    [avg] is an exact rational where Neo4j computes a float; the letter
    folding of Cypher's [toLower], whose table is the engine's, is a
    parameter of queries 3 and 4, with the folding of the ASCII letters as
    the instance the sample data use; node and relationship identity is the
    position in the store, so every [graph] value has unique identities. *)

From Stdlib Require Import String Ascii Bool Arith ZArith QArith Lia.
From Stdlib Require Import List Permutation Sorted.
Import ListNotations.

Local Open Scope nat_scope.
Local Open Scope string_scope.
Local Open Scope list_scope.

(** ** The list monad used to read [MATCH] patterns

    A pattern is matched left to right; every step extends the partial
    binding in each possible way.  [x <- xs ;; k] is that enumeration. *)

Definition guard (b : bool) : list unit := if b then [tt] else [].

Notation "x <- m ;; k" := (flat_map (fun x => k) m)
  (at level 61, m at next level, right associativity).
Notation "' p <- m ;; k" := (flat_map (fun x => match x with p => k end) m)
  (at level 61, p pattern, m at next level, right associativity).
Notation "'when' b ;; k" := (flat_map (fun _ : unit => k) (guard b))
  (at level 61, b at next level, right associativity).

(** ** Property graph *)

(** A node carries one label and the properties the queries read from it:
    [p.age], [p.gender]; [c.city], [c.country]; [s.state], [s.country];
    [co.country]; [i.interest]. *)
Inductive node : Type :=
| Person (age : Z) (gender : string)
| City (city country : string)
| State (state country : string)
| Country (country : string)
| Interest (interest : string).

(** A directed, typed relationship between two node identities. *)
Record rel : Type := mkRel { src : nat; rtype : string; tgt : nat }.

(** The store.  The identity of a node or relationship is its position. *)
Record graph : Type := mkGraph { nodes : list node; rels : list rel }.

Definition node_at (g : graph) (n : nat) : option node := nth_error (nodes g) n.

Definition node_ids (g : graph) : list nat := seq 0 (length (nodes g)).

Definition indexed {A : Type} (l : list A) : list (nat * A) :=
  combine (seq 0 (length l)) l.

Definition is_person (g : graph) (n : nat) : bool :=
  match node_at g n with Some (Person _ _) => true | _ => false end.

Definition mem_nat (x : nat) (l : list nat) : bool := existsb (Nat.eqb x) l.

Definition type_ok (ty : option string) (r : rel) : bool :=
  match ty with Some t => String.eqb (rtype r) t | None => true end.

Definition has_node (g : graph) (n : nat) : bool :=
  match node_at g n with Some _ => true | None => false end.

(** One pattern step [(n)-[:ty]->(m)] from the bound node [n] takes the
    relationships leaving [n], of type [ty] when one is given, that the
    pattern has not used yet (Cypher never binds one relationship twice in a
    pattern) and whose end is in the store. *)
Definition step_ok (g : graph) (ty : option string) (used : list nat) (n : nat)
    (x : nat * rel) : bool :=
  Nat.eqb (src (snd x)) n && type_ok ty (snd x) && negb (mem_nat (fst x) used)
  && has_node g (tgt (snd x)).

(** The step yields each such relationship with the node it leads to. *)
Definition expand (g : graph) (ty : option string) (used : list nat) (n : nat)
  : list (nat * nat) :=
  x <- indexed (rels g) ;;
  when (step_ok g ty used n x) ;;
  [(fst x, tgt (snd x))].

(** The variable-length step [(c)-[*1..2]->(e)]: directed paths of one or
    two relationships of any type, no relationship repeated. *)
Definition expand_1_2 (g : graph) (used : list nat) (c : nat)
  : list (list nat * nat) :=
  '(r1, m) <- expand g None used c ;;
  ([r1], m) :: ('(r2, e) <- expand g None (r1 :: used) m ;; [([r1; r2], e)]).

(** The labelled positions of a pattern: [(p:Person)] binds [p] only to a
    node with that label, and makes its properties available. *)
Definition person_at (g : graph) (n : nat) : list (Z * string) :=
  match node_at g n with Some (Person age gender) => [(age, gender)] | _ => [] end.

Definition city_at (g : graph) (n : nat) : list (string * string) :=
  match node_at g n with Some (City name country) => [(name, country)] | _ => [] end.

Definition state_at (g : graph) (n : nat) : list (string * string) :=
  match node_at g n with Some (State name country) => [(name, country)] | _ => [] end.

Definition country_at (g : graph) (n : nat) : list string :=
  match node_at g n with Some (Country name) => [name] | _ => [] end.

Definition interest_at (g : graph) (n : nat) : list string :=
  match node_at g n with Some (Interest name) => [name] | _ => [] end.

(** ** Scalar functions and aggregates *)

Definition is_upper (c : ascii) : bool :=
  ((65 <=? nat_of_ascii c) && (nat_of_ascii c <=? 90))%nat.

Definition lower_ascii (c : ascii) : ascii :=
  if is_upper c then ascii_of_nat (nat_of_ascii c + 32) else c.

(** The folding of the ASCII letters: Cypher's [toLower] as far as those
    letters go.  The engine folds the letters of every script; queries 3 and
    4 therefore take the folding as a parameter [lower], and [tolower] is
    the instance used with the sample data and with ASCII parameters. *)
Fixpoint tolower (s : string) : string :=
  match s with
  | EmptyString => EmptyString
  | String c t => String (lower_ascii c) (tolower t)
  end.

(** [p.age >= $age_lower AND p.age <= $age_upper] *)
Definition age_between (age_lower age_upper age : Z) : bool :=
  (age_lower <=? age)%Z && (age <=? age_upper)%Z.

Definition sumZ (l : list Z) : Z := fold_right Z.add 0%Z l.

Definition sum_nat (l : list nat) : nat := fold_right Nat.add 0 l.

(** [avg] over a non-empty group of integers, as an exact rational. *)
Definition avg (l : list Z) : Q := Qmake (sumZ l) (Pos.of_nat (length l)).

(** Keys in order of first occurrence. *)
Fixpoint dedup {K : Type} (eqb : K -> K -> bool) (l : list K) : list K :=
  match l with
  | [] => []
  | k :: t => k :: filter (fun x => negb (eqb x k)) (dedup eqb t)
  end.

(** Grouping of a [RETURN] with aggregates: the non-aggregated expressions
    form the key; each distinct key yields one group with its rows. *)
Definition group_by {R K : Type} (eqb : K -> K -> bool) (key : R -> K)
    (rows : list R) : list (K * list R) :=
  map (fun k => (k, filter (fun r => eqb (key r) k) rows))
      (dedup eqb (map key rows)).

Definition pair_eqb (a b : string * string) : bool :=
  String.eqb (fst a) (fst b) && String.eqb (snd a) (snd b).

(** ** [ORDER BY ... LIMIT n]

    Cypher fixes the order of rows only up to the sort key: rows with equal
    keys come in an order the engine chooses.  The meaning of the clause is
    therefore a relation between the rows before it and the answers an
    engine may give. *)
Definition sorted_by {A : Type} (leb : A -> A -> bool) (l : list A) : Prop :=
  StronglySorted (fun a b => leb a b = true) l.

Definition order_by_limit {A : Type} (leb : A -> A -> bool) (n : nat)
    (rows out : list A) : Prop :=
  exists l, Permutation rows l /\ sorted_by leb l /\ out = firstn n l.

(** One engine: a stable insertion sort. *)
Fixpoint insert {A : Type} (leb : A -> A -> bool) (x : A) (l : list A) : list A :=
  match l with
  | [] => [x]
  | y :: t => if leb x y then x :: l else y :: insert leb x t
  end.

Definition sort {A : Type} (leb : A -> A -> bool) (l : list A) : list A :=
  fold_right (insert leb) [] l.

Definition sort_limit {A : Type} (leb : A -> A -> bool) (n : nat) (l : list A)
  : list A := firstn n (sort leb l).

(** ** Query 1: cities with the lowest average age *)

Module Query1.

Record row : Type := mkRow { city : string; averageAge : Q }.

Record binding : Type :=
  mkBinding { p : nat; p_age : Z; c : nat; c_city : string; co : nat }.

(** [MATCH (p:Person) -[:LIVES_IN]-> (c:City) -[*1..2]-> (co:Country)
     WHERE co.country = $country] *)
Definition matches (g : graph) (country : string) : list binding :=
  p <- node_ids g ;;
  '(age, _) <- person_at g p ;;
  '(r, c) <- expand g (Some "LIVES_IN") [] p ;;
  '(name, _) <- city_at g c ;;
  '(_, co) <- expand_1_2 g [r] c ;;
  co_country <- country_at g co ;;
  when (String.eqb co_country country) ;;
  [mkBinding p age c name co].

(** [RETURN c.city AS city, avg(p.age) AS averageAge] *)
Definition groups (g : graph) (country : string) : list row :=
  map (fun kg => {| city := fst kg; averageAge := avg (map p_age (snd kg)) |})
      (group_by String.eqb c_city (matches g country)).

Definition by_averageAge (a b : row) : bool :=
  Qle_bool (averageAge a) (averageAge b).

(** [ORDER BY averageAge LIMIT 5] *)
Definition response (g : graph) (country : string) (rows : list row) : Prop :=
  order_by_limit by_averageAge 5 (groups g country) rows.

Definition exec (g : graph) (country : string) : list row :=
  sort_limit by_averageAge 5 (groups g country).

End Query1.

(** ** Query 2: persons per country within an age range *)

Module Query2.

Record row : Type := mkRow { countries : string; personCounts : nat }.

Record binding : Type :=
  mkBinding { p : nat; ci : nat; country : nat; country_country : string }.

(** [MATCH (p:Person)-[:LIVES_IN]->(ci:City)-[*1..2]->(country:Country)
     WHERE p.age >= $age_lower AND p.age <= $age_upper] *)
Definition matches (g : graph) (age_lower age_upper : Z) : list binding :=
  p <- node_ids g ;;
  '(age, _) <- person_at g p ;;
  '(r, ci) <- expand g (Some "LIVES_IN") [] p ;;
  '(_, _) <- city_at g ci ;;
  '(_, co) <- expand_1_2 g [r] ci ;;
  name <- country_at g co ;;
  when (age_between age_lower age_upper age) ;;
  [mkBinding p ci co name].

(** [RETURN country.country AS countries, count(country) AS personCounts] *)
Definition groups (g : graph) (age_lower age_upper : Z) : list row :=
  map (fun kg => {| countries := fst kg; personCounts := length (snd kg) |})
      (group_by String.eqb country_country (matches g age_lower age_upper)).

Definition by_personCounts_desc (a b : row) : bool :=
  (personCounts b <=? personCounts a)%nat.

(** [ORDER BY personCounts DESC LIMIT 3] *)
Definition response (g : graph) (age_lower age_upper : Z) (rows : list row)
  : Prop :=
  order_by_limit by_personCounts_desc 3 (groups g age_lower age_upper) rows.

Definition exec (g : graph) (age_lower age_upper : Z) : list row :=
  sort_limit by_personCounts_desc 3 (groups g age_lower age_upper).

End Query2.

(** ** Query 3: persons of a gender in a city sharing an interest *)

Module Query3.

Record row : Type := mkRow { numPersons : nat }.

(** [MATCH (p:Person)-[:HAS_INTEREST]->(i:Interest)
     WHERE tolower(i.interest) = tolower($interest)
     AND tolower(p.gender) = tolower($gender)
     WITH p, i] *)
Definition matches_interest_with (lower : string -> string) (g : graph)
    (gender interest : string) : list (nat * nat) :=
  p <- node_ids g ;;
  '(_, p_gender) <- person_at g p ;;
  '(_, i) <- expand g (Some "HAS_INTEREST") [] p ;;
  i_interest <- interest_at g i ;;
  when (String.eqb (lower i_interest) (lower interest)
        && String.eqb (lower p_gender) (lower gender)) ;;
  [(p, i)].

(** [MATCH (p)-[:LIVES_IN]->(c:City)
     WHERE c.city = $city AND c.country = $country] *)
Definition matches_with (lower : string -> string) (g : graph)
    (gender city country interest : string) : list (nat * nat * nat) :=
  '(p, i) <- matches_interest_with lower g gender interest ;;
  '(_, c) <- expand g (Some "LIVES_IN") [] p ;;
  '(c_city, c_country) <- city_at g c ;;
  when (String.eqb c_city city && String.eqb c_country country) ;;
  [(p, i, c)].

(** [RETURN count(p) AS numPersons] *)
Definition response_with (lower : string -> string) (g : graph)
    (gender city country interest : string) : list row :=
  [ {| numPersons := length (matches_with lower g gender city country interest) |} ].

(** The query at the folding of the ASCII letters. *)
Definition matches_interest : graph -> string -> string -> list (nat * nat) :=
  matches_interest_with tolower.

Definition matches
  : graph -> string -> string -> string -> string -> list (nat * nat * nat) :=
  matches_with tolower.

Definition response
  : graph -> string -> string -> string -> string -> list row :=
  response_with tolower.

End Query3.

(** ** Query 4: the state with the most persons sharing an interest *)

Module Query4.

Record row : Type := mkRow { numPersons : nat; state : string; country : string }.

Record binding : Type :=
  mkBinding { p : nat; s : nat; s_state : string; s_country : string; i : nat }.

(** [MATCH (p:Person)-[:LIVES_IN]->(:City)-[:CITY_IN]->(s:State)
     WHERE p.age >= $age_lower AND p.age <= $age_upper
     AND s.country = $country
     WITH p, s] *)
Definition matches_state (g : graph) (country : string) (age_lower age_upper : Z)
  : list (nat * nat * string * string) :=
  p <- node_ids g ;;
  '(age, _) <- person_at g p ;;
  '(r1, c) <- expand g (Some "LIVES_IN") [] p ;;
  '(_, _) <- city_at g c ;;
  '(_, s) <- expand g (Some "CITY_IN") [r1] c ;;
  '(name, s_country) <- state_at g s ;;
  when (age_between age_lower age_upper age && String.eqb s_country country) ;;
  [(p, s, name, s_country)].

(** [MATCH (p)-[:HAS_INTEREST]->(i:Interest)
     WHERE tolower(i.interest) = tolower($interest)] *)
Definition matches_with (lower : string -> string) (g : graph)
    (country : string) (age_lower age_upper : Z) (interest : string)
  : list binding :=
  '(p, s, name, s_country) <- matches_state g country age_lower age_upper ;;
  '(_, i) <- expand g (Some "HAS_INTEREST") [] p ;;
  i_interest <- interest_at g i ;;
  when (String.eqb (lower i_interest) (lower interest)) ;;
  [mkBinding p s name s_country i].

(** [RETURN count(p) AS numPersons, s.state AS state, s.country AS country] *)
Definition groups_with (lower : string -> string) (g : graph)
    (country : string) (age_lower age_upper : Z) (interest : string)
  : list row :=
  map (fun kg => {| numPersons := length (snd kg);
                    state := fst (fst kg); country := snd (fst kg) |})
      (group_by pair_eqb (fun b => (s_state b, s_country b))
                (matches_with lower g country age_lower age_upper interest)).

Definition by_numPersons_desc (a b : row) : bool :=
  (numPersons b <=? numPersons a)%nat.

(** [ORDER BY numPersons DESC LIMIT 1] *)
Definition response_with (lower : string -> string) (g : graph)
    (country : string) (age_lower age_upper : Z) (interest : string)
    (rows : list row) : Prop :=
  order_by_limit by_numPersons_desc 1
                 (groups_with lower g country age_lower age_upper interest) rows.

(** The query at the folding of the ASCII letters. *)
Definition matches : graph -> string -> Z -> Z -> string -> list binding :=
  matches_with tolower.

Definition groups : graph -> string -> Z -> Z -> string -> list row :=
  groups_with tolower.

Definition response : graph -> string -> Z -> Z -> string -> list row -> Prop :=
  response_with tolower.

Definition exec (g : graph) (country : string) (age_lower age_upper : Z)
    (interest : string) : list row :=
  sort_limit by_numPersons_desc 1 (groups g country age_lower age_upper interest).

End Query4.

(** ** Query 5: second-degree [FOLLOWS] paths *)

Module Query5.

Record row : Type := mkRow { numPaths : nat }.

(** [MATCH (a:Person)-[r1:FOLLOWS]->(b:Person)-[r2:FOLLOWS]->(c:Person)] *)
Definition matches (g : graph) : list (nat * nat * nat * nat * nat) :=
  a <- node_ids g ;;
  when (is_person g a) ;;
  '(r1, b) <- expand g (Some "FOLLOWS") [] a ;;
  when (is_person g b) ;;
  '(r2, c) <- expand g (Some "FOLLOWS") [r1] b ;;
  when (is_person g c) ;;
  [(a, r1, b, r2, c)].

(** [RETURN count( * ) AS numPaths]: an aggregation without grouping key
    yields exactly one row, also over no match. *)
Definition response (g : graph) : list row :=
  [ {| numPaths := length (matches g) |} ].

End Query5.

(** ** The Python side: driver, polars, the runners and [main] *)

(** The failures the script can meet: the driver's (connection lost,
    authentication refused, query rejected), and polars' [NoDataError]. *)
Inductive exn : Type :=
| DriverError (reason : string)
| NoDataError.

Inductive result (A : Type) : Type :=
| Returned (a : A)
| Raised (e : exn).

Arguments Returned {A} a.
Arguments Raised {A} e.

(** A polars table: the records it was built from, in order.  The columns
    are the fields of the row type. *)
Record DataFrame (R : Type) : Type := mkDataFrame { rows : list R }.

Arguments mkDataFrame {R} rows.
Arguments rows {R} d.

(** [pl.from_dicts(data)] without a schema: polars cannot infer the columns
    of an empty sequence and raises [NoDataError]. *)
Definition from_dicts {R : Type} (data : list R) : result (DataFrame R) :=
  match data with
  | [] => Raised NoDataError
  | _ :: _ => Returned (mkDataFrame data)
  end.

(** What a Python function hands back: [None] or an object. *)
Inductive pyobject (R : Type) : Type :=
| PyNone
| PyDataFrame (df : DataFrame R).

Arguments PyNone {R}.
Arguments PyDataFrame {R} df.

(** An open session: the dataset behind it and, for the n-th call of
    [session.run] made through it, whether the driver fails that call. *)
Record Session : Type := mkSession { db : graph; fault : nat -> option string }.

(** Computations of the script: they start after some number of
    [session.run] calls, may have several outcomes (the engine's choice among
    equal sort keys), and end with a value or an exception and the new
    number of calls. *)
Definition M (A : Type) : Type := nat -> result A -> nat -> Prop.

Definition ret {A : Type} (a : A) : M A :=
  fun calls o calls' => o = Returned a /\ calls' = calls.

Definition lift {A : Type} (r : result A) : M A :=
  fun calls o calls' => o = r /\ calls' = calls.

(** Sequencing as Python does it: an exception ends the computation and is
    the outcome; nothing after it runs. *)
Definition bind {A B : Type} (m : M A) (k : A -> M B) : M B :=
  fun calls o calls'' =>
    exists oa calls', m calls oa calls' /\
      match oa with
      | Returned a => k a calls' o calls''
      | Raised e => o = Raised e /\ calls'' = calls'
      end.

Notation "x <-- m ;;; k" := (bind m (fun x => k))
  (at level 62, m at next level, right associativity).

(** [session.run(query, ...)] followed by [response.data()]: one call to the
    driver, which fails or gives one of the answers of the query. *)
Definition session_run {R : Type} (s : Session) (answers : list R -> Prop)
  : M (list R) :=
  fun calls o calls' =>
    calls' = S calls /\
    match fault s calls with
    | Some reason => o = Raised (DriverError reason)
    | None => exists data, answers data /\ o = Returned data
    end.

(** The body shared by the five runners:
    [response = session.run(...); result = pl.from_dicts(response.data());
     return result]. *)
Definition run_query {R : Type} (s : Session) (answers : list R -> Prop)
  : M (pyobject R) :=
  data <-- session_run s answers ;;;
  result <-- lift (from_dicts data) ;;;
  ret (PyDataFrame result).

Definition run_query1 (s : Session) (country : string) : M (pyobject Query1.row) :=
  run_query s (Query1.response (db s) country).

Definition run_query2 (s : Session) (age_lower age_upper : Z)
  : M (pyobject Query2.row) :=
  run_query s (Query2.response (db s) age_lower age_upper).

Definition run_query3_with (lower : string -> string) (s : Session)
    (gender city country interest : string) : M (pyobject Query3.row) :=
  run_query s (eq (Query3.response_with lower (db s) gender city country interest)).

Definition run_query3 (s : Session) (gender city country interest : string)
  : M (pyobject Query3.row) :=
  run_query s (eq (Query3.response (db s) gender city country interest)).

Definition run_query4_with (lower : string -> string) (s : Session)
    (country : string) (age_lower age_upper : Z) (interest : string)
  : M (pyobject Query4.row) :=
  run_query s (Query4.response_with lower (db s) country age_lower age_upper interest).

Definition run_query4 (s : Session) (country : string) (age_lower age_upper : Z)
    (interest : string) : M (pyobject Query4.row) :=
  run_query s (Query4.response (db s) country age_lower age_upper interest).

Definition run_query5 (s : Session) : M (pyobject Query5.row) :=
  run_query s (eq (Query5.response (db s))).

(** [main], inside its three [with] blocks. *)
Definition main (s : Session) : M unit :=
  _ <-- run_query1 s "United States" ;;;
  _ <-- run_query2 s 30 40 ;;;
  _ <-- run_query3 s "male" "London" "United Kingdom" "fine dining" ;;;
  _ <-- run_query4 s "United States" 23 30 "photography" ;;;
  _ <-- run_query5 s ;;;
  ret tt.

(** The status the interpreter exits with: 0 after [main] returns, 1 after
    an exception nobody caught. *)
Definition exit_status (o : result unit) : Z :=
  match o with Returned _ => 0%Z | Raised _ => 1%Z end.

(** *** One engine, executable

    The same script against the engine that sorts by insertion: a function
    from the number of calls made so far to the outcome and the new
    number of calls. *)
Definition E (A : Type) : Type := nat -> result A * nat.

Definition exec_bind {A B : Type} (m : E A) (k : A -> E B) : E B :=
  fun calls =>
    match m calls with
    | (Returned a, calls') => k a calls'
    | (Raised e, calls') => (Raised e, calls')
    end.

Definition exec_run_query {R : Type} (s : Session) (answer : list R)
  : E (pyobject R) :=
  fun calls =>
    match fault s calls with
    | Some reason => (Raised (DriverError reason), S calls)
    | None =>
        match from_dicts answer with
        | Returned result => (Returned (PyDataFrame result), S calls)
        | Raised e => (Raised e, S calls)
        end
    end.

Definition exec_query1 (s : Session) (country : string) :=
  exec_run_query s (Query1.exec (db s) country).

Definition exec_query2 (s : Session) (age_lower age_upper : Z) :=
  exec_run_query s (Query2.exec (db s) age_lower age_upper).

Definition exec_query3 (s : Session) (gender city country interest : string) :=
  exec_run_query s (Query3.response (db s) gender city country interest).

Definition exec_query4 (s : Session) (country : string) (age_lower age_upper : Z)
    (interest : string) :=
  exec_run_query s (Query4.exec (db s) country age_lower age_upper interest).

Definition exec_query5 (s : Session) :=
  exec_run_query s (Query5.response (db s)).

Definition exec_main (s : Session) : E unit :=
  exec_bind (exec_query1 s "United States") (fun _ =>
  exec_bind (exec_query2 s 30 40) (fun _ =>
  exec_bind (exec_query3 s "male" "London" "United Kingdom" "fine dining") (fun _ =>
  exec_bind (exec_query4 s "United States" 23 30 "photography") (fun _ =>
  exec_bind (exec_query5 s) (fun _ =>
  fun calls => (Returned tt, calls)))))).

(** ** Sample datasets *)

Definition chain3 : graph :=
  {| nodes := [Person 30 "male"; Person 31 "female"; Person 32 "male"];
     rels := [mkRel 0 "FOLLOWS" 1; mkRel 1 "FOLLOWS" 2] |}.


(** Four persons in three cities of two countries, with the
    city-state-country hierarchy of the demo dataset. *)
Definition demo : graph :=
  {| nodes :=
       [ Person 25 "male";                       (* 0 *)
         Person 35 "female";                     (* 1 *)
         Person 29 "Male";                       (* 2 *)
         Person 41 "male";                       (* 3 *)
         City "Austin" "United States";          (* 4 *)
         City "Miami" "United States";           (* 5 *)
         City "London" "United Kingdom";         (* 6 *)
         State "Texas" "United States";          (* 7 *)
         State "Florida" "United States";        (* 8 *)
         State "England" "United Kingdom";       (* 9 *)
         Country "United States";                (* 10 *)
         Country "United Kingdom";               (* 11 *)
         Interest "Photography";                 (* 12 *)
         Interest "Fine Dining" ];               (* 13 *)
     rels :=
       [ mkRel 0 "LIVES_IN" 4; mkRel 1 "LIVES_IN" 5;
         mkRel 2 "LIVES_IN" 6; mkRel 3 "LIVES_IN" 6;
         mkRel 4 "CITY_IN" 7; mkRel 5 "CITY_IN" 8; mkRel 6 "CITY_IN" 9;
         mkRel 7 "STATE_IN" 10; mkRel 8 "STATE_IN" 10; mkRel 9 "STATE_IN" 11;
         mkRel 0 "HAS_INTEREST" 12; mkRel 1 "HAS_INTEREST" 12;
         mkRel 2 "HAS_INTEREST" 13; mkRel 3 "HAS_INTEREST" 13;
         mkRel 0 "FOLLOWS" 1; mkRel 1 "FOLLOWS" 2; mkRel 2 "FOLLOWS" 0 ] |}.

Definition no_fault : nat -> option string := fun _ => None.

Definition demo_session : Session := mkSession demo no_fault.

(** ** Vocabulary of the properties *)

(** A relationship of the store, by identity, between two nodes. *)
Definition has_rel (g : graph) (i a b : nat) : Prop :=
  exists r, nth_error (rels g) i = Some r /\ src r = a /\ tgt r = b.

(** A directed path of one or two distinct relationships. *)
Definition path_1_2 (g : graph) (a b : nat) : Prop :=
  (exists i, has_rel g i a b) \/
  (exists i j m, i <> j /\ has_rel g i a m /\ has_rel g j m b).



Definition demo_answer1 : DataFrame Query1.row :=
  mkDataFrame [ Query1.mkRow "Austin" 25; Query1.mkRow "Miami" 35 ].

(** The persons whose age lies in the inclusive range. *)
Definition in_age_range (g : graph) (age_lower age_upper : Z) (p : nat) : bool :=
  match node_at g p with
  | Some (Person age _) => age_between age_lower age_upper age
  | _ => false
  end.

Definition persons_between (g : graph) (age_lower age_upper : Z) : list nat :=
  filter (in_age_range g age_lower age_upper) (node_ids g).

(** The ways one person is located in a country: the part of the pattern
    of queries 1 and 2 after [(p:Person)]. *)
Definition location_paths (g : graph) (p : nat) : list (nat * nat * string) :=
  '(r, ci) <- expand g (Some "LIVES_IN") [] p ;;
  '(_, _) <- city_at g ci ;;
  '(_, co) <- expand_1_2 g [r] ci ;;
  name <- country_at g co ;;
  [(ci, co, name)].

(** The sum of [personCounts] over all countries, before [LIMIT 3]. *)
Definition total_personCounts (g : graph) (age_lower age_upper : Z) : nat :=
  sum_nat (map Query2.personCounts (Query2.groups g age_lower age_upper)).

Definition descending_personCounts (l : list Query2.row) : Prop :=
  StronglySorted (fun a b => Query2.personCounts b <= Query2.personCounts a) l.

(** One person in range who lives in a country, one who lives nowhere. *)
Definition homeless : graph :=
  {| nodes := [ Person 35 "female"; Person 33 "male";
                City "Austin" "United States"; Country "United States" ];
     rels := [ mkRel 0 "LIVES_IN" 2; mkRel 2 "CITY_IN" 3 ] |}.

Definition demo_answer2 : DataFrame Query2.row :=
  mkDataFrame [ Query2.mkRow "United States" 2; Query2.mkRow "United Kingdom" 1 ].

(** Two characters that are the same ASCII letter in either case. *)
Definition same_letter (a b : ascii) : Prop :=
  a = b \/
  (is_upper a = true /\ nat_of_ascii b = nat_of_ascii a + 32) \/
  (is_upper b = true /\ nat_of_ascii a = nat_of_ascii b + 32).

(** Strings equal up to the case of the ASCII letters: of the same length
    and, position by position, the same letter.  These are the pairs the
    folding [tolower] identifies; for the engine's folding the statements
    take the pairs as a parameter. *)
Inductive eq_upto_case : string -> string -> Prop :=
| eq_upto_case_empty : eq_upto_case EmptyString EmptyString
| eq_upto_case_char a b s t :
    same_letter a b -> eq_upto_case s t ->
    eq_upto_case (String a s) (String b t).

(** The number of matches of query 4 whose state carries the name [st]. *)
Definition count_in_state (g : graph) (country : string) (age_lower age_upper : Z)
    (interest st : string) : nat :=
  length (filter (fun b => String.eqb (Query4.s_state b) st)
                 (Query4.matches g country age_lower age_upper interest)).

Definition demo_answer3 : DataFrame Query3.row := mkDataFrame [ Query3.mkRow 2 ].

Definition demo_answer4 : DataFrame Query4.row :=
  mkDataFrame [ Query4.mkRow 1 "Texas" "United States" ].

Definition demo_answer5 : DataFrame Query5.row := mkDataFrame [ Query5.mkRow 3 ].


(** A session whose third call loses the connection. *)
Definition flaky_session : Session :=
  mkSession demo (fun n => if Nat.eqb n 2 then Some "connection lost" else None).


(** A [FOLLOWS] relationship from a person to a person. *)
Definition follows (g : graph) (r : rel) : bool :=
  String.eqb (rtype r) "FOLLOWS" && is_person g (src r) && is_person g (tgt r).

(** A chain of length 2: two different [FOLLOWS] relationships, the second
    leaving the person the first one arrives at. *)
Definition is_chain (g : graph) (x y : nat * rel) : bool :=
  negb (Nat.eqb (fst x) (fst y)) && follows g (snd x) && follows g (snd y)
  && Nat.eqb (tgt (snd x)) (src (snd y)).

(** All chains of length 2 of the store, as pairs of relationships. *)
Definition follows_chains (g : graph) : list ((nat * rel) * (nat * rel)) :=
  filter (fun xy => is_chain g (fst xy) (snd xy))
         (list_prod (indexed (rels g)) (indexed (rels g))).

Definition ind (b : bool) : nat := if b then 1 else 0.

Definition chain3_session : Session := mkSession chain3 no_fault.

Definition lonely_session : Session :=
  mkSession {| nodes := [ Person 30 "male"; City "Austin" "United States" ];
               rels := [ mkRel 0 "LIVES_IN" 1 ] |} no_fault.

(** ** Vocabulary of the further properties *)

(** The interests a person has that carry the wanted name up to letter
    case, one entry per [HAS_INTEREST] relationship. *)
Definition matching_interests (g : graph) (p : nat) (interest : string)
  : list nat :=
  '(_, i) <- expand g (Some "HAS_INTEREST") [] p ;;
  i_interest <- interest_at g i ;;
  when (String.eqb (tolower i_interest) (tolower interest)) ;;
  [i].

(** The cities a person lives in that carry exactly the wanted city and
    country names, one entry per [LIVES_IN] relationship. *)
Definition matching_homes (g : graph) (p : nat) (city country : string)
  : list nat :=
  '(_, c) <- expand g (Some "LIVES_IN") [] p ;;
  '(c_city, c_country) <- city_at g c ;;
  when (String.eqb c_city city && String.eqb c_country country) ;;
  [c].

Definition has_gender (g : graph) (p : nat) (gender : string) : bool :=
  match node_at g p with
  | Some (Person _ p_gender) => String.eqb (tolower p_gender) (tolower gender)
  | _ => false
  end.

(** The persons query 3 is about, each once. *)
Definition matching_persons (g : graph) (gender city country interest : string)
  : list nat :=
  filter (fun p => has_gender g p gender
                   && negb (Nat.eqb (length (matching_interests g p interest)) 0)
                   && negb (Nat.eqb (length (matching_homes g p city country)) 0))
         (node_ids g).

(** The same persons, each as often as it has matching interests times
    matching homes. *)
Definition weighted_persons (g : graph) (gender city country interest : string)
  : nat :=
  sum_nat (map (fun p => if has_gender g p gender
                         then length (matching_interests g p interest)
                              * length (matching_homes g p city country)
                         else 0)
               (node_ids g)).

(** The number of [FOLLOWS] relationships between persons that arrive at
    [b], that leave [b], and that are loops. *)
Definition in_follows (g : graph) (b : nat) : nat :=
  length (filter (fun r => follows g r && Nat.eqb (tgt r) b) (rels g)).

Definition out_follows (g : graph) (b : nat) : nat :=
  length (filter (fun r => follows g r && Nat.eqb (src r) b) (rels g)).

Definition follows_loops (g : graph) : nat :=
  length (filter (fun r => follows g r && Nat.eqb (tgt r) (src r)) (rels g)).

(** Two [FOLLOWS] relationships between persons that meet, whether
    different or not. *)
Definition meets (g : graph) (r r' : rel) : bool :=
  follows g r && follows g r' && Nat.eqb (tgt r) (src r').

(** What [main] needs to get through: no call failed by the driver, and a
    match for each of the three queries that can come back empty, with the
    parameters [main] passes. *)
Definition main_succeeds_on (s : Session) : Prop :=
  (forall j, j < 5 -> fault s j = None) /\
  Query1.matches (db s) "United States" <> [] /\
  Query2.matches (db s) 30 40 <> [] /\
  Query4.matches (db s) "United States" 23 30 "photography" <> [].

(** ** The script with what it prints and closes

    The runners print the query text (and, except for query 3, its SQL
    counterpart) before they call the driver, and the result after the table
    is built; [main] runs them inside [with] blocks for the driver, the
    session and the timer, whose exits come in reverse order, whether the
    body returned or raised.  The events say which statement ran; the
    printed text itself is not modelled. *)
Inductive event : Type :=
| PrintQuery (n : nat)
| PrintSql (n : nat)
| PrintResult (n : nat)
| PrintElapsed
| CloseSession
| CloseDriver.

(** Computations that also append to the output: the state is the number of
    driver calls made and the events so far, oldest first. *)
Definition IO (A : Type) : Type :=
  nat * list event -> result A -> nat * list event -> Prop.

Definition io_ret {A : Type} (a : A) : IO A :=
  fun w o w' => o = Returned a /\ w' = w.

Definition io_bind {A B : Type} (m : IO A) (k : A -> IO B) : IO B :=
  fun w o w'' =>
    exists oa w', m w oa w' /\
      match oa with
      | Returned a => k a w' o w''
      | Raised e => o = Raised e /\ w'' = w'
      end.

Notation "x <~ m ;, k" := (io_bind m (fun x => k))
  (at level 62, m at next level, right associativity).

Definition emit (e : event) : IO unit :=
  fun w o w' => o = Returned tt /\ w' = (fst w, snd w ++ [e]).

(** A computation that prints nothing. *)
Definition quiet {A : Type} (m : M A) : IO A :=
  fun w o w' => m (fst w) o (fst w') /\ snd w' = snd w.

(** [with ctx: body], for a context manager whose exit does [e] and lets an
    exception of the body pass. *)
Definition with_exit {A : Type} (e : event) (body : IO A) : IO A :=
  fun w o w' => exists w1, body w o w1 /\ w' = (fst w1, snd w1 ++ [e]).

(** The body of a runner, print statements included. *)
Definition run_query_io {R : Type} (n : nat) (sql : bool) (s : Session)
    (answers : list R -> Prop) : IO (pyobject R) :=
  _ <~ emit (PrintQuery n) ;,
  _ <~ (if sql then emit (PrintSql n) else io_ret tt) ;,
  data <~ quiet (session_run s answers) ;,
  result <~ quiet (lift (from_dicts data)) ;,
  _ <~ emit (PrintResult n) ;,
  io_ret (PyDataFrame result).

Definition run_query1_io (s : Session) (country : string) :=
  run_query_io 1 true s (Query1.response (db s) country).

Definition run_query2_io (s : Session) (age_lower age_upper : Z) :=
  run_query_io 2 true s (Query2.response (db s) age_lower age_upper).

Definition run_query3_io (s : Session) (gender city country interest : string) :=
  run_query_io 3 false s (eq (Query3.response (db s) gender city country interest)).

Definition run_query4_io (s : Session) (country : string) (age_lower age_upper : Z)
    (interest : string) :=
  run_query_io 4 true s (Query4.response (db s) country age_lower age_upper interest).

Definition run_query5_io (s : Session) :=
  run_query_io 5 true s (eq (Query5.response (db s))).

Definition main_body_io (s : Session) : IO unit :=
  _ <~ run_query1_io s "United States" ;,
  _ <~ run_query2_io s 30 40 ;,
  _ <~ run_query3_io s "male" "London" "United Kingdom" "fine dining" ;,
  _ <~ run_query4_io s "United States" 23 30 "photography" ;,
  _ <~ run_query5_io s ;,
  io_ret tt.

(** [main] with its three [with] blocks. *)
Definition main_io (s : Session) : IO unit :=
  with_exit CloseDriver (with_exit CloseSession (with_exit PrintElapsed
    (main_body_io s))).

(** What runner [n] prints: its headers, and the result when it returns. *)
Definition printed (n : nat) (returned : bool) : list event :=
  PrintQuery n :: (if Nat.eqb n 3 then [] else [PrintSql n])
  ++ (if returned then [PrintResult n] else []).

(** The output of [k] runners that returned, followed, when the next one
    raised, by what that one printed before. *)
Definition transcript (k : nat) (raised : bool) : list event :=
  flat_map (fun n => printed n true) (seq 1 k)
  ++ (if raised then printed (S k) false else []).

Definition closing : list event := [PrintElapsed; CloseSession; CloseDriver].




(** * Properties *)

(** ** Reading membership in a pattern enumeration *)

Lemma in_when {A : Type} (b : bool) (k : list A) (x : A) :
  In x (when b ;; k) <-> b = true /\ In x k.
Proof.
  destruct b; simpl.
  - rewrite app_nil_r. tauto.
  - split; [tauto | intros [H _]; discriminate].
Qed.

Lemma length_when {A : Type} (b : bool) (k : list A) :
  length (when b ;; k) = if b then length k else 0.
Proof. destruct b; simpl; [rewrite app_nil_r|]; reflexivity. Qed.

Lemma in_indexed {A : Type} (l : list A) (i : nat) (x : A) :
  In (i, x) (indexed l) <-> nth_error l i = Some x.
Proof.
  unfold indexed.
  assert (G : forall (l : list A) k i x,
             In (i, x) (combine (seq k (length l)) l) <->
             k <= i /\ nth_error l (i - k) = Some x).
  { clear. induction l as [|y l IH]; intros k i x; simpl.
    - split; [tauto|]. intros [_ H]. destruct (i - k); discriminate.
    - rewrite IH. split.
      + intros [H | [H1 H2]].
        * injection H as -> ->. rewrite Nat.sub_diag. split; [lia | reflexivity].
        * split; [lia|]. replace (i - k) with (S (i - S k)) by lia. exact H2.
      + intros [H1 H2]. destruct (Nat.eq_dec k i) as [->|Hne].
        * rewrite Nat.sub_diag in H2. simpl in H2. left. congruence.
        * right. split; [lia|].
          replace (i - k) with (S (i - S k)) in H2 by lia. exact H2. }
  rewrite G, Nat.sub_0_r. split; [tauto | intros H; split; [lia | exact H]].
Qed.

Lemma in_node_ids (g : graph) (n : nat) :
  In n (node_ids g) <-> n < length (nodes g).
Proof. unfold node_ids. rewrite in_seq. lia. Qed.

Lemma in_expand (g : graph) (ty : option string) (used : list nat) (n i m : nat) :
  In (i, m) (expand g ty used n) <->
  exists r, nth_error (rels g) i = Some r /\ src r = n /\ tgt r = m /\
            type_ok ty r = true /\ mem_nat i used = false /\
            node_at g m <> None.
Proof.
  unfold expand. rewrite in_flat_map. split.
  - intros [[j r] [Hin H]]. apply in_indexed in Hin.
    apply in_when in H. destruct H as [Hb [H|[]]]. simpl in H.
    injection H as -> <-. unfold step_ok in Hb. simpl in Hb.
    repeat (apply andb_true_iff in Hb; destruct Hb as [Hb ?]).
    exists r. apply Nat.eqb_eq in Hb. apply negb_true_iff in H0.
    repeat split; auto. unfold has_node in H.
    destruct (node_at g (tgt r)); congruence.
  - intros [r (Hn & Hs & Ht & Hty & Hu & Hm)]. exists (i, r). split.
    + apply in_indexed. exact Hn.
    + apply in_when. split; [|left; simpl; congruence].
      unfold step_ok. simpl.
      rewrite Hty, Hu. subst n m. rewrite Nat.eqb_refl. simpl.
      unfold has_node. destruct (node_at g (tgt r)); congruence.
Qed.

Lemma in_expand_has_rel (g : graph) ty used n i m :
  In (i, m) (expand g ty used n) -> has_rel g i n m.
Proof.
  intros H. apply in_expand in H. destruct H as [r (H1 & H2 & H3 & _)].
  exists r. auto.
Qed.

Lemma in_expand_1_2 (g : graph) used c path e :
  In (path, e) (expand_1_2 g used c) -> path_1_2 g c e.
Proof.
  unfold expand_1_2. rewrite in_flat_map. intros [[r1 m] [H1 H2]].
  destruct H2 as [H2 | H2].
  - injection H2 as <- <-. left. exists r1. eapply in_expand_has_rel; eauto.
  - apply in_flat_map in H2. destruct H2 as [[r2 e'] [H2 [H3|[]]]].
    injection H3 as <- <-. right. exists r1, r2, m.
    pose proof (in_expand_has_rel _ _ _ _ _ _ H1) as Ha.
    pose proof (in_expand_has_rel _ _ _ _ _ _ H2) as Hb.
    apply in_expand in H2. destruct H2 as [r (_ & _ & _ & _ & Hu & _)].
    simpl in Hu. apply orb_false_iff in Hu. destruct Hu as [Hu _].
    apply Nat.eqb_neq in Hu. auto.
Qed.

(** ** [ORDER BY ... LIMIT] and the insertion sort *)

Lemma in_firstn {A : Type} (n : nat) (l : list A) (x : A) :
  In x (firstn n l) -> In x l.
Proof.
  intros H. rewrite <- (firstn_skipn n l). apply in_or_app. left. exact H.
Qed.

Lemma StronglySorted_weaken {A : Type} (P Q : A -> A -> Prop) (l : list A) :
  (forall a b, P a b -> Q a b) -> StronglySorted P l -> StronglySorted Q l.
Proof.
  intros HPQ. induction 1 as [|x l Hs IH Hall]; constructor; [exact IH|].
  eapply Forall_impl; [|exact Hall]. intros y. apply HPQ.
Qed.

Section Ordering.

Context {A : Type} (leb : A -> A -> bool).
Hypothesis leb_total : forall a b, leb a b = true \/ leb b a = true.
Hypothesis leb_trans : forall a b c, leb a b = true -> leb b c = true -> leb a c = true.

Lemma insert_perm (x : A) (l : list A) : Permutation (x :: l) (insert leb x l).
Proof.
  induction l as [|y l IH]; simpl; [reflexivity|].
  destruct (leb x y); [reflexivity|].
  rewrite perm_swap. constructor. exact IH.
Qed.

Lemma sort_perm (l : list A) : Permutation l (sort leb l).
Proof.
  induction l as [|x l IH]; simpl; [constructor|].
  rewrite <- insert_perm. constructor. exact IH.
Qed.

Lemma insert_sorted (x : A) (l : list A) :
  sorted_by leb l -> sorted_by leb (insert leb x l).
Proof.
  unfold sorted_by. induction 1 as [|y l Hs IH Hall]; simpl.
  - repeat constructor.
  - destruct (leb x y) eqn:E.
    + constructor; [constructor; assumption|].
      constructor; [exact E|].
      eapply Forall_impl; [|exact Hall]. intros z Hz. eauto.
    + constructor; [exact IH|].
      eapply Permutation_Forall; [apply insert_perm|].
      constructor; [|exact Hall].
      destruct (leb_total x y) as [H|H]; congruence.
Qed.

Lemma sort_sorted (l : list A) : sorted_by leb (sort leb l).
Proof.
  induction l as [|x l IH]; simpl; [constructor|].
  apply insert_sorted. exact IH.
Qed.

(** The insertion-sort engine gives one of the answers of the clause. *)
Lemma sort_limit_answer (n : nat) (l : list A) :
  order_by_limit leb n l (sort_limit leb n l).
Proof.
  exists (sort leb l). split; [apply sort_perm|]. split; [apply sort_sorted|reflexivity].
Qed.

End Ordering.

Section OrderByLimit.

Context {A : Type} (leb : A -> A -> bool) (n : nat) (l out : list A).
Hypothesis answer : order_by_limit leb n l out.

Lemma order_by_limit_length : length out <= n.
Proof.
  destruct answer as [l' (_ & _ & ->)]. rewrite length_firstn. lia.
Qed.

Lemma sorted_by_firstn (k : nat) (l' : list A) :
  sorted_by leb l' -> sorted_by leb (firstn k l').
Proof.
  unfold sorted_by. intros H. revert k.
  induction H as [|x l' Hs IH Hall]; intros [|k]; simpl; try constructor.
  - apply IH.
  - rewrite Forall_forall in *. intros y Hy. apply Hall.
    eapply in_firstn; exact Hy.
Qed.

Lemma order_by_limit_sorted : sorted_by leb out.
Proof.
  destruct answer as [l' (_ & Hs & ->)]. apply sorted_by_firstn. exact Hs.
Qed.

Lemma order_by_limit_in (x : A) : In x out -> In x l.
Proof.
  destruct answer as [l' (Hp & _ & ->)]. intros H.
  eapply Permutation_in; [symmetry; exact Hp|].
  eapply in_firstn; exact H.
Qed.

Lemma order_by_limit_nil : l = [] -> out = [].
Proof.
  destruct answer as [l' (Hp & _ & ->)]. intros ->.
  apply Permutation_nil in Hp. subst. destruct n; reflexivity.
Qed.

(** With a positive limit and rows to sort, the first answer comes before
    every row. *)
Lemma order_by_limit_first :
  0 < n -> l <> [] ->
  exists x rest, out = x :: rest /\ forall y, In y l -> y = x \/ leb x y = true.
Proof.
  destruct answer as [l' (Hp & Hs & ->)]. intros Hn Hl.
  destruct l' as [|x l'].
  - apply Permutation_sym, Permutation_nil in Hp. contradiction.
  - destruct n as [|k]; [lia|]. simpl. exists x, (firstn k l'). split; [reflexivity|].
    intros y Hy. apply (Permutation_in _ Hp) in Hy. destruct Hy as [->|Hy]; [auto|].
    right. inversion Hs as [|? ? _ Hall]; subst.
    rewrite Forall_forall in Hall. auto.
Qed.

End OrderByLimit.

(** ** Grouping *)

Section Grouping.

Context {R K : Type} (eqb : K -> K -> bool) (key : R -> K).
Hypothesis eqb_eq : forall a b, eqb a b = true <-> a = b.

Lemma in_dedup (l : list K) (k : K) : In k (dedup eqb l) <-> In k l.
Proof.
  induction l as [|x l IH]; simpl; [tauto|].
  rewrite filter_In, IH, negb_true_iff.
  destruct (eqb k x) eqn:E.
  - apply eqb_eq in E. subst. split; [tauto | auto].
  - assert (x <> k) by (intros ->; rewrite (proj2 (eqb_eq k k) eq_refl) in E; discriminate).
    tauto.
Qed.

Lemma NoDup_dedup (l : list K) : NoDup (dedup eqb l).
Proof.
  induction l as [|x l IH]; simpl; constructor.
  - rewrite filter_In, negb_true_iff. intros [_ H].
    rewrite (proj2 (eqb_eq x x) eq_refl) in H. discriminate.
  - apply NoDup_filter. exact IH.
Qed.

(** Every group has a key some row carries, holds exactly the rows with
    that key, and is not empty. *)
Lemma in_group_by (rows : list R) (k : K) (grp : list R) :
  In (k, grp) (group_by eqb key rows) ->
  grp = filter (fun r => eqb (key r) k) rows /\
  exists r, In r grp /\ In r rows /\ key r = k.
Proof.
  unfold group_by. rewrite in_map_iff. intros [k' [H Hin]].
  injection H as -> <-. split; [reflexivity|].
  apply in_dedup, in_map_iff in Hin. destruct Hin as [r [Hk Hr]].
  exists r. rewrite filter_In. repeat split; auto. apply eqb_eq. exact Hk.
Qed.

(** Every row is in the group of its key. *)
Lemma group_by_complete (rows : list R) (r : R) :
  In r rows ->
  In (key r, filter (fun x => eqb (key x) (key r)) rows) (group_by eqb key rows).
Proof.
  intros H. unfold group_by. apply in_map_iff. exists (key r). split; [reflexivity|].
  apply in_dedup, in_map. exact H.
Qed.

Lemma group_by_nil (rows : list R) : group_by eqb key rows = [] <-> rows = [].
Proof.
  split.
  - destruct rows as [|r rows]; [reflexivity|]. discriminate.
  - intros ->. reflexivity.
Qed.

Lemma count_one (ks : list K) (k : K) :
  NoDup ks -> In k ks ->
  sum_nat (map (fun k' => if eqb k k' then 1 else 0) ks) = 1.
Proof.
  induction 1 as [|x ks Hx Hnd IH]; simpl; [tauto|].
  intros [->|Hin].
  - rewrite (proj2 (eqb_eq k k) eq_refl).
    assert (E : sum_nat (map (fun k' => if eqb k k' then 1 else 0) ks) = 0).
    { clear IH Hnd. induction ks as [|y ks IH]; simpl; [reflexivity|].
      destruct (eqb k y) eqn:E.
      - apply eqb_eq in E. subst. exfalso. apply Hx. left. reflexivity.
      - apply IH. intros H. apply Hx. right. exact H. }
    rewrite E. reflexivity.
  - destruct (eqb k x) eqn:E.
    + apply eqb_eq in E. subst. contradiction.
    + rewrite IH by assumption. reflexivity.
Qed.

Lemma sum_filter_lengths (ks : list K) (rows : list R) :
  NoDup ks -> (forall r, In r rows -> In (key r) ks) ->
  sum_nat (map (fun k => length (filter (fun r => eqb (key r) k) rows)) ks)
  = length rows.
Proof.
  intros Hnd. induction rows as [|r rows IH]; intros Hin; simpl.
  - clear. induction ks; simpl; auto.
  - rewrite <- IH by (intros; apply Hin; right; assumption).
    replace (S (sum_nat (map (fun k => length (filter (fun r0 => eqb (key r0) k) rows)) ks)))
      with (sum_nat (map (fun k' => if eqb (key r) k' then 1 else 0) ks)
            + sum_nat (map (fun k => length (filter (fun r0 => eqb (key r0) k) rows)) ks))
      by (rewrite (count_one ks (key r) Hnd (Hin r (or_introl eq_refl))); reflexivity).
    clear. induction ks as [|k ks IHk]; simpl; [reflexivity|].
    rewrite IHk. destruct (eqb (key r) k); simpl; lia.
Qed.

(** The groups partition the rows: their sizes add up to the number of
    rows. *)
Lemma group_by_sizes (rows : list R) :
  sum_nat (map (fun kg => length (snd kg)) (group_by eqb key rows)) = length rows.
Proof.
  unfold group_by. rewrite map_map. simpl.
  apply sum_filter_lengths; [apply NoDup_dedup|].
  intros r Hr. apply in_dedup, in_map. exact Hr.
Qed.

End Grouping.

Lemma pair_eqb_eq (a b : string * string) : pair_eqb a b = true <-> a = b.
Proof.
  destruct a, b. unfold pair_eqb. simpl.
  rewrite andb_true_iff, !String.eqb_eq. split; [intros [-> ->]; reflexivity|].
  intros H. injection H. auto.
Qed.

(** ** The runners *)

Lemma run_query_iff {R : Type} (s : Session) (answers : list R -> Prop)
    (calls : nat) (o : result (pyobject R)) (calls' : nat) :
  run_query s answers calls o calls' <->
  calls' = S calls /\
  match fault s calls with
  | Some reason => o = Raised (DriverError reason)
  | None => exists data, answers data /\
      o = match data with
          | [] => Raised NoDataError
          | _ :: _ => Returned (PyDataFrame (mkDataFrame data))
          end
  end.
Proof.
  unfold run_query, bind, session_run, lift, ret. split.
  - intros (oa & c1 & [-> Hf] & Hk). destruct (fault s calls) as [reason|].
    + subst oa. destruct Hk as [-> ->]. auto.
    + destruct Hf as (data & Ha & ->).
      destruct Hk as (ob & c2 & [-> ->] & Hk). split.
      * destruct data; simpl in Hk; tauto.
      * exists data. split; [exact Ha|].
        destruct data; simpl in Hk; tauto.
  - intros [-> Hf]. destruct (fault s calls) as [reason|] eqn:E.
    + subst o. exists (Raised (DriverError reason)), (S calls). auto.
    + destruct Hf as (data & Ha & ->). exists (Returned data), (S calls).
      split; [eauto|].
      exists (from_dicts data), (S calls). split; [auto|].
      destruct data; simpl; auto.
Qed.

(** [run_query3] and [run_query4] are the runners at the folding of the
    ASCII letters. *)
Lemma run_query3_ascii : run_query3 = run_query3_with tolower.
Proof. reflexivity. Qed.

Lemma run_query4_ascii : run_query4 = run_query4_with tolower.
Proof. reflexivity. Qed.

(** A runner that returns, returns the table of an answer of its query. *)
Lemma run_query_returned {R : Type} (s : Session) (answers : list R -> Prop)
    (calls : nat) (v : pyobject R) (calls' : nat) :
  run_query s answers calls (Returned v) calls' ->
  exists data, answers data /\ data <> [] /\ v = PyDataFrame (mkDataFrame data).
Proof.
  intros H. apply run_query_iff in H. destruct H as [_ H].
  destruct (fault s calls); [discriminate|].
  destruct H as (data & Ha & H). exists data.
  destruct data; [discriminate|]. injection H as ->. repeat split; auto. discriminate.
Qed.

(** The executable runner is one behaviour of the runner. *)
Lemma exec_run_query_sound {R : Type} (s : Session) (answers : list R -> Prop)
    (answer : list R) (calls : nat) :
  answers answer ->
  run_query s answers calls (fst (exec_run_query s answer calls))
            (snd (exec_run_query s answer calls)).
Proof.
  intros Ha. apply run_query_iff. unfold exec_run_query.
  destruct (fault s calls) as [reason|]; simpl.
  - auto.
  - destruct answer; simpl; split; auto; eexists; (split; [exact Ha|reflexivity]).
Qed.

(** ** Query 1 *)

Lemma in_person_at (g : graph) (n : nat) (age : Z) (gender : string) :
  In (age, gender) (person_at g n) <-> node_at g n = Some (Person age gender).
Proof.
  unfold person_at. destruct (node_at g n) as [[]|]; simpl;
    split; try tauto; try discriminate; intros H.
  - destruct H as [H|[]]. congruence.
  - left. congruence.
Qed.

Lemma in_city_at (g : graph) (n : nat) (name c_country : string) :
  In (name, c_country) (city_at g n) <-> node_at g n = Some (City name c_country).
Proof.
  unfold city_at. destruct (node_at g n) as [[]|]; simpl;
    split; try tauto; try discriminate; intros H.
  - destruct H as [H|[]]. congruence.
  - left. congruence.
Qed.

Lemma in_state_at (g : graph) (n : nat) (name s_country : string) :
  In (name, s_country) (state_at g n) <-> node_at g n = Some (State name s_country).
Proof.
  unfold state_at. destruct (node_at g n) as [[]|]; simpl;
    split; try tauto; try discriminate; intros H.
  - destruct H as [H|[]]. congruence.
  - left. congruence.
Qed.

Lemma in_country_at (g : graph) (n : nat) (name : string) :
  In name (country_at g n) <-> node_at g n = Some (Country name).
Proof.
  unfold country_at. destruct (node_at g n) as [[]|]; simpl;
    split; try tauto; try discriminate; intros H.
  - destruct H as [H|[]]. congruence.
  - left. congruence.
Qed.

Lemma in_interest_at (g : graph) (n : nat) (name : string) :
  In name (interest_at g n) <-> node_at g n = Some (Interest name).
Proof.
  unfold interest_at. destruct (node_at g n) as [[]|]; simpl;
    split; try tauto; try discriminate; intros H.
  - destruct H as [H|[]]. congruence.
  - left. congruence.
Qed.

Lemma query1_matches_sound (g : graph) (country : string) (b : Query1.binding) :
  In b (Query1.matches g country) ->
  exists gender c_country,
    node_at g (Query1.p b) = Some (Person (Query1.p_age b) gender) /\
    node_at g (Query1.c b) = Some (City (Query1.c_city b) c_country) /\
    node_at g (Query1.co b) = Some (Country country) /\
    path_1_2 g (Query1.c b) (Query1.co b).
Proof.
  unfold Query1.matches. intros H.
  apply in_flat_map in H. destruct H as [p [_ H]].
  apply in_flat_map in H. destruct H as [[age gender] [Hp H]].
  apply in_flat_map in H. destruct H as [[r c] [_ H]].
  apply in_flat_map in H. destruct H as [[name c_country] [Hc H]].
  apply in_flat_map in H. destruct H as [[path co] [Hpath H]].
  apply in_flat_map in H. destruct H as [co_country [Hco H]].
  apply in_when in H. destruct H as [He [H|[]]]. subst b. simpl.
  apply String.eqb_eq in He. subst co_country.
  exists gender, c_country.
  apply in_person_at in Hp. apply in_city_at in Hc. apply in_country_at in Hco.
  apply in_expand_1_2 in Hpath. auto.
Qed.


Lemma by_averageAge_total (a b : Query1.row) :
  Query1.by_averageAge a b = true \/ Query1.by_averageAge b a = true.
Proof.
  unfold Query1.by_averageAge. rewrite !Qle_bool_iff.
  destruct (Qlt_le_dec (Query1.averageAge b) (Query1.averageAge a)) as [H|H].
  - right. apply Qlt_le_weak. exact H.
  - left. exact H.
Qed.

Lemma by_averageAge_trans (a b c : Query1.row) :
  Query1.by_averageAge a b = true -> Query1.by_averageAge b c = true ->
  Query1.by_averageAge a c = true.
Proof.
  unfold Query1.by_averageAge. rewrite !Qle_bool_iff. apply Qle_trans.
Qed.

Lemma query1_exec_answer (g : graph) (country : string) :
  Query1.response g country (Query1.exec g country).
Proof.
  apply sort_limit_answer; [apply by_averageAge_total | apply by_averageAge_trans].
Qed.


Lemma demo_run_query1 :
  run_query1 demo_session "United States" 0 (Returned (PyDataFrame demo_answer1)) 1.
Proof.
  exact (exec_run_query_sound demo_session _ _ 0
           (query1_exec_answer demo "United States")).
Qed.



(** ** Query 2 *)

Lemma length_flat_map_sum {A B : Type} (f : A -> list B) (l : list A) :
  length (flat_map f l) = sum_nat (map (fun x => length (f x)) l).
Proof.
  induction l as [|x l IH]; simpl; [reflexivity|].
  rewrite length_app, IH. reflexivity.
Qed.

Lemma sum_nat_ext {A : Type} (f h : A -> nat) (l : list A) :
  (forall x, In x l -> f x = h x) -> sum_nat (map f l) = sum_nat (map h l).
Proof.
  induction l as [|x l IH]; intros H; simpl; [reflexivity|].
  rewrite (H x (or_introl eq_refl)), IH; [reflexivity|].
  intros y Hy. apply H. right. exact Hy.
Qed.

Lemma sum_nat_indicator {A : Type} (f : A -> bool) (l : list A) :
  sum_nat (map (fun x => if f x then 1 else 0) l) = length (filter f l).
Proof.
  induction l as [|x l IH]; simpl; [reflexivity|].
  rewrite IH. destruct (f x); reflexivity.
Qed.

(** The matches of query 2, person by person. *)
Lemma query2_matches_per_person (g : graph) (age_lower age_upper : Z) :
  length (Query2.matches g age_lower age_upper) =
  sum_nat (map (fun p => if in_age_range g age_lower age_upper p
                         then length (location_paths g p) else 0)
               (node_ids g)).
Proof.
  unfold Query2.matches. rewrite length_flat_map_sum.
  apply sum_nat_ext. intros p _.
  unfold in_age_range, person_at, location_paths.
  destruct (node_at g p) as [[age gender| | | |]|]; simpl; try reflexivity.
  rewrite app_nil_r, !length_flat_map_sum.
  destruct (age_between age_lower age_upper age).
  - apply sum_nat_ext. intros [r ci] _. rewrite !length_flat_map_sum.
    apply sum_nat_ext. intros [c_city c_country] _. rewrite !length_flat_map_sum.
    apply sum_nat_ext. intros [path co] _. rewrite !length_flat_map_sum.
    apply sum_nat_ext. intros name _. reflexivity.
  - assert (Z0 : forall (A : Type) (l : list A), sum_nat (map (fun _ => 0) l) = 0)
      by (intros A l; induction l; simpl; auto).
    rewrite <- (Z0 _ (expand g (Some "LIVES_IN") [] p)).
    apply sum_nat_ext. intros [r ci] _. rewrite !length_flat_map_sum.
    rewrite <- (Z0 _ (city_at g ci)).
    apply sum_nat_ext. intros [c_city c_country] _. rewrite !length_flat_map_sum.
    rewrite <- (Z0 _ (expand_1_2 g [r] ci)).
    apply sum_nat_ext. intros [path co] _. rewrite !length_flat_map_sum.
    rewrite <- (Z0 _ (country_at g co)).
    apply sum_nat_ext. intros name _. reflexivity.
Qed.

(** The counts of all countries add up to the number of matched paths. *)
Lemma total_personCounts_matches (g : graph) (age_lower age_upper : Z) :
  total_personCounts g age_lower age_upper =
  length (Query2.matches g age_lower age_upper).
Proof.
  unfold total_personCounts, Query2.groups. rewrite map_map. simpl.
  apply (group_by_sizes _ _ String.eqb_eq).
Qed.

Lemma by_personCounts_desc_total (a b : Query2.row) :
  Query2.by_personCounts_desc a b = true \/ Query2.by_personCounts_desc b a = true.
Proof. unfold Query2.by_personCounts_desc. rewrite !Nat.leb_le. lia. Qed.

Lemma by_personCounts_desc_trans (a b c : Query2.row) :
  Query2.by_personCounts_desc a b = true -> Query2.by_personCounts_desc b c = true ->
  Query2.by_personCounts_desc a c = true.
Proof. unfold Query2.by_personCounts_desc. rewrite !Nat.leb_le. lia. Qed.

Lemma query2_exec_answer (g : graph) (age_lower age_upper : Z) :
  Query2.response g age_lower age_upper (Query2.exec g age_lower age_upper).
Proof.
  apply sort_limit_answer;
    [apply by_personCounts_desc_total | apply by_personCounts_desc_trans].
Qed.

Lemma run_query2_shape (s : Session) (age_lower age_upper : Z) (calls calls' : nat)
    (df : DataFrame Query2.row) :
  run_query2 s age_lower age_upper calls (Returned (PyDataFrame df)) calls' ->
  length (rows df) <= 3 /\ descending_personCounts (rows df).
Proof.
  intros H. apply run_query_returned in H. destruct H as (data & Ha & _ & E).
  injection E as ->. simpl. unfold Query2.response in Ha.
  split; [eapply order_by_limit_length; exact Ha|].
  pose proof (order_by_limit_sorted _ _ _ _ Ha) as Hs.
  eapply StronglySorted_weaken; [|exact Hs].
  intros a b E. apply Nat.leb_le. exact E.
Qed.

(** C2, as stated, fails: with ages 30 to 40 on [homeless] the counts of all
    countries add up to 1 while two persons have an age in the range. *)
Lemma run_query2_total_counterexample :
  (30 <= 40)%Z /\
  total_personCounts homeless 30 40 = 1 /\
  length (persons_between homeless 30 40) = 2 /\
  ~ total_personCounts homeless 30 40 = length (persons_between homeless 30 40).
Proof.
  split; [lia|]. split; [reflexivity|]. split; [reflexivity|].
  vm_compute. discriminate.
Qed.

(** C2, amended.  Whenever [run_query2] returns, its table has at most 3
    rows of (countries, personCounts), descending by personCounts; the
    counts of all countries, before the limit, add up to the number of
    matched person-city-country paths, which is the number of persons with an
    age in the inclusive range when each of them is located in a country
    along exactly one path. *)
Theorem run_query2_rows (s : Session) (age_lower age_upper : Z) :
  (forall calls calls' df,
     run_query2 s age_lower age_upper calls (Returned (PyDataFrame df)) calls' ->
     length (rows df) <= 3 /\ descending_personCounts (rows df)) /\
  total_personCounts (db s) age_lower age_upper =
    length (Query2.matches (db s) age_lower age_upper) /\
  ((forall p, In p (persons_between (db s) age_lower age_upper) ->
              length (location_paths (db s) p) = 1) ->
   total_personCounts (db s) age_lower age_upper =
     length (persons_between (db s) age_lower age_upper)).
Proof.
  split; [intros calls calls' df; apply run_query2_shape|].
  split; [apply total_personCounts_matches|].
  intros H. rewrite total_personCounts_matches, query2_matches_per_person.
  unfold persons_between. rewrite <- sum_nat_indicator.
  apply sum_nat_ext. intros p Hp.
  destruct (in_age_range (db s) age_lower age_upper p) eqn:E; [|reflexivity].
  apply H. unfold persons_between. apply filter_In. auto.
Qed.

Lemma demo_run_query2 :
  run_query2 demo_session 20 40 0 (Returned (PyDataFrame demo_answer2)) 1.
Proof.
  exact (exec_run_query_sound demo_session _ _ 0 (query2_exec_answer demo 20 40)).
Qed.

Lemma run_query2_rows_witness :
  run_query2 demo_session 20 40 0 (Returned (PyDataFrame demo_answer2)) 1 /\
  (length (rows demo_answer2) <= 3 /\ descending_personCounts (rows demo_answer2)) /\
  (forall p, In p (persons_between demo 20 40) -> length (location_paths demo p) = 1) /\
  total_personCounts demo 20 40 = length (persons_between demo 20 40).
Proof.
  assert (H : forall p, In p (persons_between demo 20 40) ->
                        length (location_paths demo p) = 1).
  { intros p Hp. vm_compute in Hp.
    destruct Hp as [<-|[<-|[<-|[]]]]; reflexivity. }
  destruct (run_query2_rows demo_session 20 40) as (H1 & _ & H3).
  split; [exact demo_run_query2|].
  split; [exact (H1 0 1 demo_answer2 demo_run_query2)|].
  split; [exact H | exact (H3 H)].
Defined.

(** ** Query 3 *)

Lemma is_upper_range (a : ascii) :
  is_upper a = true <-> 65 <= nat_of_ascii a <= 90.
Proof.
  unfold is_upper. rewrite andb_true_iff, !Nat.leb_le. tauto.
Qed.

Lemma lower_ascii_upper (a : ascii) :
  is_upper a = true ->
  nat_of_ascii (lower_ascii a) = nat_of_ascii a + 32.
Proof.
  intros H. unfold lower_ascii. rewrite H.
  apply is_upper_range in H. apply nat_ascii_embedding. lia.
Qed.

Lemma lower_ascii_other (a : ascii) : is_upper a = false -> lower_ascii a = a.
Proof. intros H. unfold lower_ascii. rewrite H. reflexivity. Qed.

Lemma nat_of_ascii_inj (a b : ascii) : nat_of_ascii a = nat_of_ascii b -> a = b.
Proof.
  intros H. rewrite <- (ascii_nat_embedding a), <- (ascii_nat_embedding b).
  rewrite H. reflexivity.
Qed.

Lemma same_letter_lower (a b : ascii) :
  same_letter a b <-> lower_ascii a = lower_ascii b.
Proof.
  split.
  - intros [->|[[Ha Hb]|[Hb Ha]]]; [reflexivity| |]; apply nat_of_ascii_inj.
    + rewrite (lower_ascii_upper a Ha).
      assert (is_upper b = false) as Hn.
      { apply not_true_is_false. intros Hu.
        apply is_upper_range in Ha, Hu. lia. }
      rewrite (lower_ascii_other b Hn). lia.
    + rewrite (lower_ascii_upper b Hb).
      assert (is_upper a = false) as Hn.
      { apply not_true_is_false. intros Hu.
        apply is_upper_range in Hb, Hu. lia. }
      rewrite (lower_ascii_other a Hn). lia.
  - intros H. apply (f_equal nat_of_ascii) in H.
    destruct (is_upper a) eqn:Ha, (is_upper b) eqn:Hb.
    + left. apply nat_of_ascii_inj.
      rewrite (lower_ascii_upper a Ha), (lower_ascii_upper b Hb) in H. lia.
    + right. left. split; [exact Ha|].
      rewrite (lower_ascii_upper a Ha), (lower_ascii_other b Hb) in H. lia.
    + right. right. split; [exact Hb|].
      rewrite (lower_ascii_other a Ha), (lower_ascii_upper b Hb) in H. lia.
    + left. apply nat_of_ascii_inj.
      rewrite (lower_ascii_other a Ha), (lower_ascii_other b Hb) in H. exact H.
Qed.

(** [tolower] identifies exactly the strings equal up to letter case. *)
Lemma eq_upto_case_tolower (s t : string) :
  eq_upto_case s t <-> tolower s = tolower t.
Proof.
  split.
  - induction 1 as [|a b s t Hab _ IH]; simpl; [reflexivity|].
    apply same_letter_lower in Hab. congruence.
  - revert t. induction s as [|a s IH]; intros [|b t] H; simpl in H;
      try discriminate; [constructor|].
    injection H as Hab Hst. constructor.
    + apply same_letter_lower. exact Hab.
    + apply IH. exact Hst.
Qed.

Lemma query3_same_folding (lower : string -> string) (g : graph)
    (gender1 gender2 city country interest1 interest2 : string) :
  lower gender1 = lower gender2 -> lower interest1 = lower interest2 ->
  Query3.response_with lower g gender1 city country interest1 =
  Query3.response_with lower g gender2 city country interest2.
Proof.
  intros Hg Hi.
  unfold Query3.response_with, Query3.matches_with, Query3.matches_interest_with.
  rewrite Hg, Hi. reflexivity.
Qed.

(** C3.  [run_query3] is case-insensitive in its gender and interest
    parameters.  Whatever the engine's letter folding [lower] is, and
    whatever the pairs of strings [same_case] it folds together (for the
    folding of the ASCII letters: the strings equal up to the case of those
    letters, [eq_upto_case]): for any session, city and country, and two
    gender strings and two interest strings equal up to letter case, the two
    calls have the same outcomes; a call the driver does not fail returns,
    for both, the same table of a single row; and the numPersons of that row
    is the same count for either pair of parameters. *)
Theorem run_query3_case_insensitive (lower : string -> string)
    (same_case : string -> string -> Prop) (s : Session)
    (gender1 gender2 city country interest1 interest2 : string) :
  (forall a b, same_case a b -> lower a = lower b) ->
  same_case gender1 gender2 -> same_case interest1 interest2 ->
  (forall calls o calls',
     run_query3_with lower s gender1 city country interest1 calls o calls' <->
     run_query3_with lower s gender2 city country interest2 calls o calls') /\
  (forall calls,
     fault s calls = None ->
     exists n,
       run_query3_with lower s gender1 city country interest1 calls
         (Returned (PyDataFrame (mkDataFrame [ Query3.mkRow n ]))) (S calls) /\
       run_query3_with lower s gender2 city country interest2 calls
         (Returned (PyDataFrame (mkDataFrame [ Query3.mkRow n ]))) (S calls)) /\
  (forall calls v calls',
     run_query3_with lower s gender1 city country interest1 calls
       (Returned v) calls' ->
     v = PyDataFrame (mkDataFrame
           [ Query3.mkRow
               (length (Query3.matches_with lower (db s) gender2 city country
                          interest2)) ])).
Proof.
  intros Hfold Hg Hi. apply Hfold in Hg, Hi.
  pose proof (query3_same_folding lower (db s) _ _ city country _ _ Hg Hi) as E.
  split; [|split].
  - intros calls o calls'. unfold run_query3_with. rewrite E. tauto.
  - intros calls Hf.
    exists (length (Query3.matches_with lower (db s) gender2 city country interest2)).
    assert (H2 : run_query3_with lower s gender2 city country interest2 calls
              (Returned (PyDataFrame (mkDataFrame
                 [ Query3.mkRow (length (Query3.matches_with lower (db s) gender2
                                           city country interest2)) ])))
              (S calls)).
    { unfold run_query3_with. apply run_query_iff. rewrite Hf.
      split; [reflexivity|]. eexists. split; reflexivity. }
    split; [|exact H2]. unfold run_query3_with in *. rewrite E. exact H2.
  - intros calls v calls' H. unfold run_query3_with in H. rewrite E in H.
    apply run_query_returned in H. destruct H as (data & <- & _ & ->).
    reflexivity.
Qed.

Lemma run_query3_case_insensitive_witness :
  (forall a b, eq_upto_case a b -> tolower a = tolower b) /\
  eq_upto_case "MALE" "male" /\ eq_upto_case "Fine Dining" "fine dining" /\
  fault demo_session 0 = None /\
  (forall calls o calls',
     run_query3 demo_session "MALE" "London" "United Kingdom" "Fine Dining"
                calls o calls' <->
     run_query3 demo_session "male" "London" "United Kingdom" "fine dining"
                calls o calls') /\
  (exists n,
     run_query3 demo_session "MALE" "London" "United Kingdom" "Fine Dining" 0
       (Returned (PyDataFrame (mkDataFrame [ Query3.mkRow n ]))) 1 /\
     run_query3 demo_session "male" "London" "United Kingdom" "fine dining" 0
       (Returned (PyDataFrame (mkDataFrame [ Query3.mkRow n ]))) 1) /\
  (forall calls v calls',
     run_query3 demo_session "MALE" "London" "United Kingdom" "Fine Dining"
                calls (Returned v) calls' ->
     v = PyDataFrame (mkDataFrame [ Query3.mkRow 2 ])).
Proof.
  assert (Hfold : forall a b, eq_upto_case a b -> tolower a = tolower b)
    by (intros a b; apply eq_upto_case_tolower).
  assert (Hg : eq_upto_case "MALE" "male")
    by (apply eq_upto_case_tolower; reflexivity).
  assert (Hi : eq_upto_case "Fine Dining" "fine dining")
    by (apply eq_upto_case_tolower; reflexivity).
  destruct (run_query3_case_insensitive tolower eq_upto_case demo_session
              "MALE" "male" "London" "United Kingdom" "Fine Dining" "fine dining"
              Hfold Hg Hi) as (H1 & H2 & H3).
  split; [exact Hfold|]. split; [exact Hg|]. split; [exact Hi|].
  split; [reflexivity|]. split; [exact H1|].
  split; [exact (H2 0 eq_refl) | exact H3].
Defined.

(** A count over no matching city is zero: the city and country parameters
    are compared to the stored strings as they are. *)
Lemma query3_exact_city_country (g : graph) (gender city country interest : string) :
  (forall n name c_country,
     node_at g n = Some (City name c_country) -> name <> city \/ c_country <> country) ->
  Query3.response g gender city country interest = [ Query3.mkRow 0 ].
Proof.
  intros H. unfold Query3.response, Query3.response_with. f_equal. f_equal.
  change (Query3.matches_with tolower g gender city country interest)
    with (Query3.matches g gender city country interest).
  destruct (Query3.matches g gender city country interest) as [|m l] eqn:E;
    [reflexivity|].
  exfalso. assert (Hin : In m (Query3.matches g gender city country interest))
    by (rewrite E; left; reflexivity).
  unfold Query3.matches, Query3.matches_with in Hin.
  apply in_flat_map in Hin. destruct Hin as [[p i] [_ Hin]].
  apply in_flat_map in Hin. destruct Hin as [[r c] [_ Hin]].
  apply in_flat_map in Hin. destruct Hin as [[name c_country] [Hc Hin]].
  apply in_when in Hin. destruct Hin as [Hb _].
  apply andb_true_iff in Hb. destruct Hb as [H1 H2].
  apply String.eqb_eq in H1, H2. apply in_city_at in Hc.
  destruct (H c name c_country Hc); contradiction.
Qed.

(** C8.  [run_query3] compares its city and country parameters to the
    stored strings exactly: when no [City] node carries both strings as
    given the count is 0, and on the sample dataset the city "london" or the
    country "united kingdom", which differ from the stored values only in
    letter case, give numPersons 0 where the exact strings give 2. *)
Theorem run_query3_city_country_exact :
  (forall g gender city country interest,
     (forall n name c_country,
        node_at g n = Some (City name c_country) ->
        name <> city \/ c_country <> country) ->
     Query3.response g gender city country interest = [ Query3.mkRow 0 ]) /\
  exists s gender city city' country country' interest,
    eq_upto_case city city' /\ eq_upto_case country country' /\
    forall calls v calls',
      (run_query3 s gender city country interest calls (Returned v) calls' <->
       calls' = S calls /\ v = PyDataFrame (mkDataFrame [ Query3.mkRow 2 ])) /\
      (run_query3 s gender city' country interest calls (Returned v) calls' <->
       calls' = S calls /\ v = PyDataFrame (mkDataFrame [ Query3.mkRow 0 ])) /\
      (run_query3 s gender city country' interest calls (Returned v) calls' <->
       calls' = S calls /\ v = PyDataFrame (mkDataFrame [ Query3.mkRow 0 ])).
Proof.
  split; [exact query3_exact_city_country|].
  exists demo_session, "male", "London", "london",
         "United Kingdom", "united kingdom", "fine dining".
  split; [apply eq_upto_case_tolower; reflexivity|].
  split; [apply eq_upto_case_tolower; reflexivity|].
  intros calls v calls'. unfold run_query3. rewrite !run_query_iff.
  change (fault demo_session calls) with (@None string).
  split; [|split]; (split; intros H;
    [ destruct H as [-> (data & <- & E)]; vm_compute in E; injection E as <-;
      split; reflexivity
    | destruct H as [-> ->]; split; [reflexivity|]; eexists;
      split; reflexivity ]).
Qed.

Lemma run_query3_city_country_exact_witness :
  (forall n name c_country,
     node_at demo n = Some (City name c_country) ->
     name <> "Paris" \/ c_country <> "France") /\
  Query3.response demo "male" "Paris" "France" "fine dining" = [ Query3.mkRow 0 ].
Proof.
  assert (H : forall n name c_country,
            node_at demo n = Some (City name c_country) ->
            name <> "Paris" \/ c_country <> "France").
  { intros n name c_country Hn. left.
    do 14 (destruct n as [|n]; [simpl in Hn; try discriminate;
                                injection Hn as <- _; discriminate|]).
    destruct n; discriminate. }
  split; [exact H|].
  exact (proj1 run_query3_city_country_exact demo "male" "Paris" "France"
           "fine dining" H).
Defined.

(** ** Query 4 *)

Lemma query4_matches_country (g : graph) (country : string)
    (age_lower age_upper : Z) (interest : string) (b : Query4.binding) :
  In b (Query4.matches g country age_lower age_upper interest) ->
  Query4.s_country b = country.
Proof.
  unfold Query4.matches, Query4.matches_with, Query4.matches_state. intros H.
  apply in_flat_map in H. destruct H as [[[[p s] name] s_country] [H1 H2]].
  apply in_flat_map in H2. destruct H2 as [[r i] [_ H2]].
  apply in_flat_map in H2. destruct H2 as [i_interest [_ H2]].
  apply in_when in H2. destruct H2 as [_ [<-|[]]]. simpl.
  apply in_flat_map in H1. destruct H1 as [p' [_ H1]].
  apply in_flat_map in H1. destruct H1 as [[age gender] [_ H1]].
  apply in_flat_map in H1. destruct H1 as [[r1 c] [_ H1]].
  apply in_flat_map in H1. destruct H1 as [[c_city c_country] [_ H1]].
  apply in_flat_map in H1. destruct H1 as [[r2 s'] [_ H1]].
  apply in_flat_map in H1. destruct H1 as [[name' s_country'] [_ H1]].
  apply in_when in H1. destruct H1 as [Hb [H1|[]]].
  injection H1 as _ _ _ ->. apply andb_true_iff in Hb. destruct Hb as [_ Hb].
  apply String.eqb_eq. exact Hb.
Qed.

Lemma filter_ext_in_length {A : Type} (f h : A -> bool) (l : list A) :
  (forall x, In x l -> f x = h x) -> length (filter f l) = length (filter h l).
Proof.
  intros H. rewrite (filter_ext_in f h l H). reflexivity.
Qed.

(** Each row of the aggregation counts the matches of its state, in the
    country asked for. *)
Lemma query4_groups_sound (g : graph) (country : string) (age_lower age_upper : Z)
    (interest : string) (r : Query4.row) :
  In r (Query4.groups g country age_lower age_upper interest) ->
  Query4.country r = country /\
  Query4.numPersons r =
    count_in_state g country age_lower age_upper interest (Query4.state r) /\
  0 < Query4.numPersons r.
Proof.
  unfold Query4.groups, Query4.groups_with. rewrite in_map_iff. intros [[[st co] grp] [<- H]]. simpl.
  apply (in_group_by _ _ pair_eqb_eq) in H. destruct H as [-> (b & Hb & Hin & Hk)].
  injection Hk as Hst Hco.
  pose proof (query4_matches_country _ _ _ _ _ _ Hin) as Hc.
  split; [congruence|]. split.
  - unfold count_in_state. apply filter_ext_in_length. intros x Hx.
    unfold pair_eqb. simpl.
    rewrite (query4_matches_country _ _ _ _ _ _ Hx), <- Hco, Hc.
    rewrite String.eqb_refl, andb_true_r. reflexivity.
  - destruct (filter _ _) as [|? ?]; [destruct Hb | simpl; lia].
Qed.

(** Every state with matches has its row in the aggregation. *)
Lemma query4_groups_complete (g : graph) (country : string)
    (age_lower age_upper : Z) (interest st : string) :
  0 < count_in_state g country age_lower age_upper interest st ->
  exists r, In r (Query4.groups g country age_lower age_upper interest) /\
            Query4.state r = st /\
            Query4.numPersons r =
              count_in_state g country age_lower age_upper interest st.
Proof.
  unfold count_in_state. intros H.
  assert (Hex : exists b,
            In b (filter (fun b => String.eqb (Query4.s_state b) st)
                    (Query4.matches g country age_lower age_upper interest))).
  { destruct (filter _ _) as [|b l]; [simpl in H; lia|].
    exists b. left. reflexivity. }
  destruct Hex as [b Hb].
  apply filter_In in Hb. destruct Hb as [Hin Hst]. apply String.eqb_eq in Hst.
  pose proof (group_by_complete pair_eqb
                (fun b => (Query4.s_state b, Query4.s_country b))
                pair_eqb_eq _ b Hin) as Hg.
  eexists. split.
  - unfold Query4.groups, Query4.groups_with. apply in_map_iff. eexists. split; [reflexivity|exact Hg].
  - simpl. split; [exact Hst|].
    apply filter_ext_in_length. intros x Hx. unfold pair_eqb. simpl.
    rewrite (query4_matches_country _ _ _ _ _ _ Hx),
            (query4_matches_country _ _ _ _ _ _ Hin), Hst.
    rewrite String.eqb_refl, andb_true_r. reflexivity.
Qed.

Lemma by_numPersons_desc_total (a b : Query4.row) :
  Query4.by_numPersons_desc a b = true \/ Query4.by_numPersons_desc b a = true.
Proof. unfold Query4.by_numPersons_desc. rewrite !Nat.leb_le. lia. Qed.

Lemma by_numPersons_desc_trans (a b c : Query4.row) :
  Query4.by_numPersons_desc a b = true -> Query4.by_numPersons_desc b c = true ->
  Query4.by_numPersons_desc a c = true.
Proof. unfold Query4.by_numPersons_desc. rewrite !Nat.leb_le. lia. Qed.

Lemma query4_exec_answer (g : graph) (country : string) (age_lower age_upper : Z)
    (interest : string) :
  Query4.response g country age_lower age_upper interest
                  (Query4.exec g country age_lower age_upper interest).
Proof.
  apply sort_limit_answer;
    [apply by_numPersons_desc_total | apply by_numPersons_desc_trans].
Qed.

Lemma query4_groups_nil (g : graph) (country : string) (age_lower age_upper : Z)
    (interest : string) :
  Query4.groups g country age_lower age_upper interest = [] <->
  Query4.matches g country age_lower age_upper interest = [].
Proof.
  unfold Query4.groups, Query4.groups_with.
  change (Query4.matches_with tolower g country age_lower age_upper interest)
    with (Query4.matches g country age_lower age_upper interest).
  split.
  - intros H. apply map_eq_nil in H.
    apply group_by_nil in H. exact H.
  - intros ->. reflexivity.
Qed.

(** C4, as stated, fails when nothing matches: with the country "Atlantis"
    on the sample dataset no person matches, and [run_query4] raises
    [NoDataError] where the claim has it return a table of zero rows. *)
Lemma run_query4_no_match_counterexample :
  Query4.matches demo "Atlantis" 23 30 "photography" = [] /\
  (forall calls o calls',
     run_query4 demo_session "Atlantis" 23 30 "photography" calls o calls' ->
     o = Raised NoDataError) /\
  ~ exists calls df calls',
      run_query4 demo_session "Atlantis" 23 30 "photography" calls
                 (Returned (PyDataFrame df)) calls' /\ rows df = [].
Proof.
  assert (H : forall calls o calls',
            run_query4 demo_session "Atlantis" 23 30 "photography" calls o calls' ->
            o = Raised NoDataError).
  { intros calls o calls' H. unfold run_query4 in H. apply run_query_iff in H.
    destruct H as [_ (data & Ha & ->)].
    rewrite (order_by_limit_nil _ _ _ _ Ha); reflexivity. }
  split; [reflexivity|]. split; [exact H|].
  intros (calls & df & calls' & Hr & _). apply H in Hr. discriminate.
Qed.

(** C4, amended.  For every country, interest and age range: when some
    person matches, a call of [run_query4] that the driver does not fail
    returns a table of exactly one row (numPersons, state, country), the row
    of a state of that country, and its numPersons is the number of matches
    of that state and at least the number of matches of every state under
    the same filter; when nobody matches, the call raises [NoDataError]. *)
Theorem run_query4_top_state (s : Session) (country : string)
    (age_lower age_upper : Z) (interest : string) (calls : nat) :
  fault s calls = None ->
  (Query4.matches (db s) country age_lower age_upper interest <> [] ->
   (exists r, run_query4 s country age_lower age_upper interest calls
                (Returned (PyDataFrame (mkDataFrame [r]))) (S calls)) /\
   forall o calls',
     run_query4 s country age_lower age_upper interest calls o calls' ->
     exists r,
       o = Returned (PyDataFrame (mkDataFrame [r])) /\
       Query4.country r = country /\
       Query4.numPersons r =
         count_in_state (db s) country age_lower age_upper interest (Query4.state r) /\
       forall st, count_in_state (db s) country age_lower age_upper interest st
                  <= Query4.numPersons r) /\
  (Query4.matches (db s) country age_lower age_upper interest = [] ->
   forall o calls',
     run_query4 s country age_lower age_upper interest calls o calls' ->
     o = Raised NoDataError).
Proof.
  intros Hf. split.
  - intros Hm.
    assert (Hg : Query4.groups (db s) country age_lower age_upper interest <> [])
      by (rewrite query4_groups_nil; exact Hm).
    assert (Hall : forall o calls',
      run_query4 s country age_lower age_upper interest calls o calls' ->
      exists r, o = Returned (PyDataFrame (mkDataFrame [r])) /\
       Query4.country r = country /\
       Query4.numPersons r =
         count_in_state (db s) country age_lower age_upper interest (Query4.state r) /\
       forall st, count_in_state (db s) country age_lower age_upper interest st
                  <= Query4.numPersons r).
    { intros o calls' H. unfold run_query4 in H. apply run_query_iff in H.
      rewrite Hf in H. destruct H as [_ (data & Ha & ->)].
      unfold Query4.response, Query4.response_with in Ha.
      destruct (order_by_limit_first _ _ _ _ Ha (Nat.lt_0_1) Hg)
        as (r & rest & -> & Hmax).
      pose proof (order_by_limit_length _ _ _ _ Ha) as Hlen.
      destruct rest; [|simpl in Hlen; lia].
      exists r. split; [reflexivity|].
      assert (Hr : In r (Query4.groups (db s) country age_lower age_upper interest))
        by (apply (order_by_limit_in _ _ _ _ Ha); left; reflexivity).
      destruct (query4_groups_sound _ _ _ _ _ _ Hr) as (Hc & Hn & _).
      repeat split; auto. intros st.
      destruct (Nat.eq_0_gt_0_cases
                  (count_in_state (db s) country age_lower age_upper interest st))
        as [E|E]; [lia|].
      destruct (query4_groups_complete _ _ _ _ _ _ E) as (r' & Hr' & _ & <-).
      destruct (Hmax r' Hr') as [->|Hle]; [lia|].
      apply Nat.leb_le in Hle. exact Hle. }
    split; [|exact Hall].
    pose proof (exec_run_query_sound s _ _ calls
                  (query4_exec_answer (db s) country age_lower age_upper interest)) as He.
    destruct (Hall _ _ He) as (r & Hr & _). exists r.
    assert (Hc : snd (exec_run_query s
                   (Query4.exec (db s) country age_lower age_upper interest) calls)
                 = S calls).
    { unfold exec_run_query. rewrite Hf. destruct (from_dicts _); reflexivity. }
    rewrite Hr, Hc in He. exact He.
  - intros Hm o calls' H. unfold run_query4 in H. apply run_query_iff in H.
    rewrite Hf in H. destruct H as [_ (data & Ha & ->)].
    rewrite (order_by_limit_nil _ _ _ _ Ha); [reflexivity|].
    apply query4_groups_nil. exact Hm.
Qed.

Lemma demo_run_query3 :
  run_query3 demo_session "male" "London" "United Kingdom" "fine dining" 0
             (Returned (PyDataFrame demo_answer3)) 1.
Proof.
  exact (exec_run_query_sound demo_session _ _ 0 eq_refl).
Qed.

Lemma demo_run_query4 :
  run_query4 demo_session "United States" 23 30 "photography" 0
             (Returned (PyDataFrame demo_answer4)) 1.
Proof.
  exact (exec_run_query_sound demo_session _ _ 0
           (query4_exec_answer demo "United States" 23 30 "photography")).
Qed.

Lemma demo_run_query5 :
  run_query5 demo_session 0 (Returned (PyDataFrame demo_answer5)) 1.
Proof.
  exact (exec_run_query_sound demo_session _ _ 0 eq_refl).
Qed.

Lemma run_query4_top_state_witness :
  fault demo_session 0 = None /\
  Query4.matches demo "United States" 23 30 "photography" <> [] /\
  (exists r, run_query4 demo_session "United States" 23 30 "photography" 0
               (Returned (PyDataFrame (mkDataFrame [r]))) 1) /\
  Query4.matches demo "Atlantis" 23 30 "photography" = [] /\
  (forall o calls',
     run_query4 demo_session "Atlantis" 23 30 "photography" 0 o calls' ->
     o = Raised NoDataError).
Proof.
  assert (Hm : Query4.matches demo "United States" 23 30 "photography" <> [])
    by (vm_compute; discriminate).
  split; [reflexivity|]. split; [exact Hm|]. split.
  - exact (proj1 (proj1 (run_query4_top_state demo_session "United States" 23 30
                           "photography" 0 eq_refl) Hm)).
  - split; [reflexivity|].
    exact (proj2 (run_query4_top_state demo_session "Atlantis" 23 30
                    "photography" 0 eq_refl) eq_refl).
Defined.

(** ** Empty responses and returned values *)

Lemma query1_groups_nil (g : graph) (country : string) :
  Query1.matches g country = [] -> Query1.groups g country = [].
Proof. unfold Query1.groups. intros ->. reflexivity. Qed.

Lemma query2_groups_nil (g : graph) (age_lower age_upper : Z) :
  Query2.matches g age_lower age_upper = [] ->
  Query2.groups g age_lower age_upper = [].
Proof. unfold Query2.groups. intros ->. reflexivity. Qed.

Lemma run_query_empty {R : Type} (s : Session) (answers : list R -> Prop)
    (calls : nat) (o : result (pyobject R)) (calls' : nat) :
  fault s calls = None ->
  (forall data, answers data -> data = []) ->
  run_query s answers calls o calls' -> o = Raised NoDataError.
Proof.
  intros Hf Hn H. apply run_query_iff in H. rewrite Hf in H.
  destruct H as [_ (data & Ha & ->)]. rewrite (Hn _ Ha). reflexivity.
Qed.

(** C9.  A query that yields no row does not make its runner return an
    empty table: [pl.from_dicts] of the empty sequence raises, so a call
    the driver does not fail, of [run_query1], [run_query2] or [run_query4]
    with nothing matching, ends in [NoDataError]; and no runner ever returns
    a table without rows. *)
Theorem empty_response_raises (s : Session) (calls : nat) :
  fault s calls = None ->
  (forall R : Type, @from_dicts R [] = Raised NoDataError) /\
  (forall country o calls',
     Query1.matches (db s) country = [] ->
     run_query1 s country calls o calls' -> o = Raised NoDataError) /\
  (forall age_lower age_upper o calls',
     Query2.matches (db s) age_lower age_upper = [] ->
     run_query2 s age_lower age_upper calls o calls' -> o = Raised NoDataError) /\
  (forall country age_lower age_upper interest o calls',
     Query4.matches (db s) country age_lower age_upper interest = [] ->
     run_query4 s country age_lower age_upper interest calls o calls' ->
     o = Raised NoDataError) /\
  (forall (R : Type) (answers : list R -> Prop) df calls',
     run_query s answers calls (Returned (PyDataFrame df)) calls' ->
     rows df <> []).
Proof.
  intros Hf. split; [reflexivity|]. split; [|split; [|split]].
  - intros country o calls' Hm. apply (run_query_empty _ _ _ _ _ Hf).
    intros data Ha. apply (order_by_limit_nil _ _ _ _ Ha).
    apply query1_groups_nil. exact Hm.
  - intros age_lower age_upper o calls' Hm. apply (run_query_empty _ _ _ _ _ Hf).
    intros data Ha. apply (order_by_limit_nil _ _ _ _ Ha).
    apply query2_groups_nil. exact Hm.
  - intros country age_lower age_upper interest o calls' Hm.
    apply (run_query_empty _ _ _ _ _ Hf).
    intros data Ha. apply (order_by_limit_nil _ _ _ _ Ha).
    apply query4_groups_nil. exact Hm.
  - intros R answers df calls' H. apply run_query_returned in H.
    destruct H as (data & _ & Hne & E). injection E as ->. exact Hne.
Qed.

Lemma empty_response_raises_witness :
  fault demo_session 0 = None /\
  Query1.matches demo "Atlantis" = [] /\
  (forall o calls',
     run_query1 demo_session "Atlantis" 0 o calls' -> o = Raised NoDataError) /\
  Query4.matches demo "Atlantis" 23 30 "photography" = [] /\
  (forall o calls',
     run_query4 demo_session "Atlantis" 23 30 "photography" 0 o calls' ->
     o = Raised NoDataError) /\
  rows demo_answer1 <> [].
Proof.
  destruct (empty_response_raises demo_session 0 eq_refl)
    as (_ & H1 & _ & H4 & H5).
  split; [reflexivity|]. split; [reflexivity|].
  split; [exact (fun o calls' => H1 "Atlantis" o calls' eq_refl)|].
  split; [reflexivity|].
  split; [exact (fun o calls' => H4 "Atlantis" 23%Z 30%Z "photography" o calls' eq_refl)|].
  exact (H5 _ _ demo_answer1 1 demo_run_query1).
Defined.

(** C10.  Whatever its annotation says, each of the five runners, when it
    returns, returns not [None] but the table built from the rows of the
    response of its query. *)
Theorem runners_return_table (s : Session) (calls calls' : nat) :
  (forall country v,
     run_query1 s country calls (Returned v) calls' ->
     v <> PyNone /\
     exists data, Query1.response (db s) country data /\
                  v = PyDataFrame (mkDataFrame data)) /\
  (forall age_lower age_upper v,
     run_query2 s age_lower age_upper calls (Returned v) calls' ->
     v <> PyNone /\
     exists data, Query2.response (db s) age_lower age_upper data /\
                  v = PyDataFrame (mkDataFrame data)) /\
  (forall gender city country interest v,
     run_query3 s gender city country interest calls (Returned v) calls' ->
     v <> PyNone /\
     v = PyDataFrame
           (mkDataFrame (Query3.response (db s) gender city country interest))) /\
  (forall country age_lower age_upper interest v,
     run_query4 s country age_lower age_upper interest calls (Returned v) calls' ->
     v <> PyNone /\
     exists data, Query4.response (db s) country age_lower age_upper interest data /\
                  v = PyDataFrame (mkDataFrame data)) /\
  (forall v,
     run_query5 s calls (Returned v) calls' ->
     v <> PyNone /\ v = PyDataFrame (mkDataFrame (Query5.response (db s)))).
Proof.
  repeat split; intros; try discriminate.
  all: match goal with H : _ (Returned _) _ |- _ =>
         apply run_query_returned in H; destruct H as (data & Ha & _ & ->) end.
  all: try discriminate; try (subst data; reflexivity); eauto.
Qed.

Lemma runners_return_table_witness :
  run_query1 demo_session "United States" 0 (Returned (PyDataFrame demo_answer1)) 1 /\
  run_query5 demo_session 0 (Returned (PyDataFrame demo_answer5)) 1 /\
  PyDataFrame demo_answer1 <> PyNone /\
  PyDataFrame demo_answer5 = PyDataFrame (mkDataFrame (Query5.response demo)).
Proof.
  destruct (runners_return_table demo_session 0 1) as (H1 & _ & _ & _ & H5).
  split; [exact demo_run_query1|]. split; [exact demo_run_query5|].
  split; [exact (proj1 (H1 _ _ demo_run_query1))|].
  exact (proj2 (H5 _ demo_run_query5)).
Defined.

(** ** Failures *)






(** The executable script is one behaviour of the script. *)
Lemma exec_bind_sound {A B : Type} (m : M A) (k : A -> M B) (em : E A)
    (ek : A -> E B) (calls : nat) :
  (forall c, m c (fst (em c)) (snd (em c))) ->
  (forall a c, k a c (fst (ek a c)) (snd (ek a c))) ->
  bind m k calls (fst (exec_bind em ek calls)) (snd (exec_bind em ek calls)).
Proof.
  intros Hm Hk. unfold bind, exec_bind. specialize (Hm calls).
  destruct (em calls) as [[a|e] c1]; simpl in *.
  - exists (Returned a), c1. split; [exact Hm | apply Hk].
  - exists (Raised e), c1. auto.
Qed.

Lemma exec_main_sound (s : Session) (calls : nat) :
  main s calls (fst (exec_main s calls)) (snd (exec_main s calls)).
Proof.
  unfold main, exec_main.
  apply exec_bind_sound;
    [intros c; apply exec_run_query_sound, query1_exec_answer|intros _ c1].
  apply exec_bind_sound;
    [intros c; apply exec_run_query_sound, query2_exec_answer|intros _ c2].
  apply exec_bind_sound;
    [intros c; apply exec_run_query_sound; reflexivity|intros _ c3].
  apply exec_bind_sound;
    [intros c; apply exec_run_query_sound, query4_exec_answer|intros _ c4].
  apply exec_bind_sound;
    [intros c; apply exec_run_query_sound; reflexivity|intros _ c5].
  split; reflexivity.
Qed.



(** ** Repeated runs *)







(** ** Query 5 *)

Lemma sum_nat_zero {A : Type} (l : list A) : sum_nat (map (fun _ => 0) l) = 0.
Proof. induction l; simpl; auto. Qed.

Lemma sum_nat_if {A : Type} (b : bool) (f : A -> nat) (l : list A) :
  (if b then sum_nat (map f l) else 0) =
  sum_nat (map (fun x => if b then f x else 0) l).
Proof. destruct b; [reflexivity | rewrite sum_nat_zero; reflexivity]. Qed.

Lemma sum_nat_add {A : Type} (f h : A -> nat) (l : list A) :
  sum_nat (map (fun x => f x + h x) l) = sum_nat (map f l) + sum_nat (map h l).
Proof. induction l as [|x l IH]; simpl; [reflexivity | rewrite IH; lia]. Qed.

Lemma sum_nat_swap {A B : Type} (f : A -> B -> nat) (l1 : list A) (l2 : list B) :
  sum_nat (map (fun a => sum_nat (map (fun b => f a b) l2)) l1) =
  sum_nat (map (fun b => sum_nat (map (fun a => f a b) l1)) l2).
Proof.
  induction l1 as [|a l1 IH]; simpl.
  - rewrite sum_nat_zero. reflexivity.
  - rewrite IH, <- sum_nat_add. reflexivity.
Qed.

Lemma length_filter_list_prod {A B : Type} (f : A * B -> bool)
    (l1 : list A) (l2 : list B) :
  length (filter f (list_prod l1 l2)) =
  sum_nat (map (fun a => sum_nat (map (fun b => ind (f (a, b))) l2)) l1).
Proof.
  induction l1 as [|a l1 IH]; simpl; [reflexivity|].
  rewrite filter_app, length_app, IH. f_equal.
  clear. induction l2 as [|b l2 IH]; simpl; [reflexivity|].
  rewrite <- IH. destruct (f (a, b)); reflexivity.
Qed.

Lemma length_flat_map_expand {B : Type} (g : graph) (ty : option string)
    (used : list nat) (n : nat) (k : nat * nat -> list B) :
  length (flat_map k (expand g ty used n)) =
  sum_nat (map (fun x => if step_ok g ty used n x
                         then length (k (fst x, tgt (snd x))) else 0)
               (indexed (rels g))).
Proof.
  unfold expand. induction (indexed (rels g)) as [|x l IH]; simpl;
    [reflexivity|].
  rewrite flat_map_app, length_app, IH. f_equal.
  destruct (step_ok g ty used n x); simpl; [rewrite !app_nil_r|]; reflexivity.
Qed.

Lemma is_person_node (g : graph) (n : nat) :
  is_person g n = true -> n < length (nodes g) /\ has_node g n = true.
Proof.
  unfold is_person, has_node, node_at. intros H. split.
  - apply nth_error_Some. destruct (nth_error (nodes g) n); congruence.
  - destruct (nth_error (nodes g) n); congruence.
Qed.

(** The tests made along the pattern of query 5 for a start node and two
    relationships amount to: the first relationship leaves the start node,
    and the two form a chain. *)
Lemma query5_tests (g : graph) (a : nat) (x y : nat * rel) :
  is_person g a
  && (step_ok g (Some "FOLLOWS") [] a x && is_person g (tgt (snd x)))
  && (step_ok g (Some "FOLLOWS") [fst x] (tgt (snd x)) y
      && is_person g (tgt (snd y)))
  = Nat.eqb (src (snd x)) a && is_chain g x y.
Proof.
  destruct x as [i r], y as [j r']. unfold step_ok, is_chain, follows. simpl.
  rewrite orb_false_r, (Nat.eqb_sym j i), (Nat.eqb_sym (src r') (tgt r)).
  pose proof (is_person_node g (tgt r)) as Hb.
  pose proof (is_person_node g (tgt r')) as Hc.
  destruct (Nat.eqb_spec (src r) a) as [->|_];
    [|rewrite andb_false_r; reflexivity].
  destruct (Nat.eqb_spec (tgt r) (src r')) as [<-|_].
  - destruct (is_person g a), (String.eqb (rtype r) "FOLLOWS"),
      (is_person g (tgt r)), (String.eqb (rtype r') "FOLLOWS"),
      (is_person g (tgt r')), (Nat.eqb i j),
      (has_node g (tgt r)), (has_node g (tgt r'));
      simpl; try reflexivity;
      try (destruct (Hb eq_refl); discriminate);
      try (destruct (Hc eq_refl); discriminate).
  - simpl. rewrite !andb_false_r. reflexivity.
Qed.

Lemma query5_matches_sum (g : graph) :
  length (Query5.matches g) =
  sum_nat (map (fun a =>
    sum_nat (map (fun x =>
      sum_nat (map (fun y => ind (Nat.eqb (src (snd x)) a && is_chain g x y))
                   (indexed (rels g))))
      (indexed (rels g))))
    (node_ids g)).
Proof.
  unfold Query5.matches. rewrite length_flat_map_sum.
  apply sum_nat_ext. intros a _.
  rewrite length_when, length_flat_map_expand, sum_nat_if.
  apply sum_nat_ext. intros x _.
  rewrite length_when, length_flat_map_expand.
  rewrite sum_nat_if, sum_nat_if, sum_nat_if.
  apply sum_nat_ext. intros y _.
  rewrite length_when. simpl length.
  rewrite <- query5_tests.
  destruct (is_person g a), (step_ok g (Some "FOLLOWS") [] a x),
    (is_person g (tgt (snd x))),
    (step_ok g (Some "FOLLOWS") [fst x] (tgt (snd x)) y),
    (is_person g (tgt (snd y))); reflexivity.
Qed.

Lemma sum_ind_eqb (k n : nat) (b : bool) :
  (b = true -> k < n) ->
  sum_nat (map (fun a => ind (Nat.eqb k a && b)) (seq 0 n)) = ind b.
Proof.
  intros H. destruct b; simpl.
  - rewrite (sum_nat_ext _ (fun a => if Nat.eqb k a then 1 else 0)).
    + apply (count_one Nat.eqb Nat.eqb_eq); [apply seq_NoDup|].
      apply in_seq. specialize (H eq_refl). lia.
    + intros a _. rewrite andb_true_r. reflexivity.
  - rewrite (sum_nat_ext _ (fun _ => 0)); [apply sum_nat_zero|].
    intros a _. rewrite andb_false_r. reflexivity.
Qed.

(** The count of query 5 is the number of chains of length 2. *)
Lemma query5_counts_chains (g : graph) :
  length (Query5.matches g) = length (follows_chains g).
Proof.
  rewrite query5_matches_sum. unfold follows_chains.
  rewrite length_filter_list_prod, sum_nat_swap.
  apply sum_nat_ext. intros x _. rewrite sum_nat_swap.
  apply sum_nat_ext. intros y _. simpl. unfold node_ids.
  apply sum_ind_eqb. intros H. unfold is_chain in H.
  repeat (apply andb_true_iff in H; destruct H as [H ?]).
  unfold follows in H2. repeat (apply andb_true_iff in H2; destruct H2 as [H2 ?]).
  apply is_person_node. assumption.
Qed.

Lemma filter_none {A : Type} (f : A -> bool) (l : list A) :
  (forall x, In x l -> f x = false) -> filter f l = [].
Proof.
  induction l as [|x l IH]; intros H; simpl; [reflexivity|].
  rewrite (H x (or_introl eq_refl)). apply IH. intros y Hy. apply H. right. exact Hy.
Qed.

Lemma no_follows_no_chain (g : graph) :
  (forall r, In r (rels g) -> rtype r <> "FOLLOWS") -> follows_chains g = [].
Proof.
  intros H. unfold follows_chains. apply filter_none.
  intros [[i r] y] Hin. apply in_prod_iff in Hin. destruct Hin as [Hx _].
  apply in_indexed, nth_error_In in Hx. apply H in Hx.
  unfold is_chain, follows. simpl.
  destruct (String.eqb_spec (rtype r) "FOLLOWS") as [E|_]; [contradiction|].
  simpl. rewrite andb_false_r. reflexivity.
Qed.

Lemma simple_chain_one_chain (g : graph) (a b c : nat) :
  rels g = [ mkRel a "FOLLOWS" b; mkRel b "FOLLOWS" c ] ->
  is_person g a = true -> is_person g b = true -> is_person g c = true ->
  a <> c ->
  length (follows_chains g) = 1.
Proof.
  intros Hr Ha Hb Hc Hac. unfold follows_chains. rewrite Hr.
  unfold indexed, is_chain, follows. simpl.
  rewrite Ha, Hb, Hc, !Nat.eqb_refl. simpl.
  apply not_eq_sym, Nat.eqb_neq in Hac. rewrite Hac. reflexivity.
Qed.

(** C5.  A call of [run_query5] that the driver does not fail returns a
    table of one row whose numPaths is the number of chains of two
    different [FOLLOWS] relationships between persons; that number is 0 on a
    graph without [FOLLOWS] relationship and 1 on a graph whose only
    relationships are the simple chain A to B to C. *)
Theorem run_query5_counts_chains (s : Session) (calls : nat)
    (o : result (pyobject Query5.row)) (calls' : nat) :
  fault s calls = None ->
  run_query5 s calls o calls' ->
  o = Returned (PyDataFrame
        (mkDataFrame [ Query5.mkRow (length (follows_chains (db s))) ])) /\
  ((forall r, In r (rels (db s)) -> rtype r <> "FOLLOWS") ->
   o = Returned (PyDataFrame (mkDataFrame [ Query5.mkRow 0 ]))) /\
  (forall a b c,
     rels (db s) = [ mkRel a "FOLLOWS" b; mkRel b "FOLLOWS" c ] ->
     is_person (db s) a = true -> is_person (db s) b = true ->
     is_person (db s) c = true ->
     a <> b -> b <> c -> a <> c ->
     o = Returned (PyDataFrame (mkDataFrame [ Query5.mkRow 1 ]))).
Proof.
  intros Hf H. unfold run_query5 in H. apply run_query_iff in H.
  rewrite Hf in H. destruct H as [_ (data & <- & ->)].
  unfold Query5.response. rewrite query5_counts_chains.
  split; [reflexivity|]. split.
  - intros Hn. rewrite (no_follows_no_chain _ Hn). reflexivity.
  - intros a b c Hr Ha Hb Hc _ _ Hac.
    rewrite (simple_chain_one_chain _ a b c Hr Ha Hb Hc Hac). reflexivity.
Qed.

Lemma run_query5_counts_chains_witness :
  fault chain3_session 0 = None /\
  run_query5 chain3_session 0
    (Returned (PyDataFrame (mkDataFrame [ Query5.mkRow 1 ]))) 1 /\
  Returned (PyDataFrame (mkDataFrame [ Query5.mkRow 1 ])) =
  Returned (PyDataFrame
    (mkDataFrame [ Query5.mkRow (length (follows_chains chain3)) ])) /\
  run_query5 lonely_session 0
    (Returned (PyDataFrame (mkDataFrame [ Query5.mkRow 0 ]))) 1.
Proof.
  assert (H : run_query5 chain3_session 0
                (Returned (PyDataFrame (mkDataFrame [ Query5.mkRow 1 ]))) 1)
    by exact (exec_run_query_sound chain3_session _ _ 0 eq_refl).
  split; [reflexivity|]. split; [exact H|]. split.
  - exact (proj1 (run_query5_counts_chains chain3_session 0 _ 1 eq_refl H)).
  - exact (exec_run_query_sound lonely_session _ _ 0 eq_refl).
Defined.

(** * Further properties of the queries and of [main] *)

(** ** More on [ORDER BY ... LIMIT] *)

Lemma sorted_by_app {A : Type} (leb : A -> A -> bool) (l1 l2 : list A) :
  sorted_by leb (l1 ++ l2) ->
  forall x y, In x l1 -> In y l2 -> leb x y = true.
Proof.
  unfold sorted_by. induction l1 as [|a l1 IH]; simpl; intros H x y Hx Hy; [tauto|].
  inversion H as [|? ? Hs Hall]; subst. destruct Hx as [<-|Hx].
  - rewrite Forall_forall in Hall. apply Hall, in_or_app. right. exact Hy.
  - apply IH; assumption.
Qed.

(** The clause keeps as many rows as the limit allows. *)
Lemma order_by_limit_exact_length {A : Type} (leb : A -> A -> bool) (n : nat)
    (l out : list A) :
  order_by_limit leb n l out -> length out = Nat.min n (length l).
Proof.
  intros (l' & Hp & _ & ->). rewrite length_firstn, (Permutation_length Hp).
  reflexivity.
Qed.

(** Every row the clause keeps comes before every row it drops. *)
Lemma order_by_limit_top {A : Type} (leb : A -> A -> bool) (n : nat)
    (l out : list A) :
  order_by_limit leb n l out ->
  forall x y, In x out -> In y l -> ~ In y out -> leb x y = true.
Proof.
  intros (l' & Hp & Hs & ->) x y Hx Hy Hny.
  apply (Permutation_in _ Hp) in Hy.
  rewrite <- (firstn_skipn n l') in Hy, Hs.
  apply in_app_or in Hy. destruct Hy as [Hy|Hy]; [contradiction|].
  eapply sorted_by_app; eauto.
Qed.

(** Rows with different keys before the clause have different keys after. *)
Lemma order_by_limit_NoDup {A K : Type} (leb : A -> A -> bool) (key : A -> K)
    (n : nat) (l out : list A) :
  order_by_limit leb n l out -> NoDup (map key l) -> NoDup (map key out).
Proof.
  intros (l' & Hp & _ & ->) Hnd.
  assert (Hnd' : NoDup (map key l'))
    by (eapply Permutation_NoDup; [apply Permutation_map; exact Hp | exact Hnd]).
  rewrite <- (firstn_skipn n l'), map_app in Hnd'.
  apply NoDup_app_remove_r in Hnd'. exact Hnd'.
Qed.

Lemma group_by_keys {R K : Type} (eqb : K -> K -> bool) (key : R -> K)
    (rows : list R) :
  map fst (group_by eqb key rows) = dedup eqb (map key rows).
Proof.
  unfold group_by. rewrite map_map. simpl. apply map_id.
Qed.

Lemma query1_groups_cities (g : graph) (country : string) :
  NoDup (map Query1.city (Query1.groups g country)).
Proof.
  unfold Query1.groups. rewrite map_map. simpl.
  rewrite <- (map_map fst (fun k => k)), map_id, group_by_keys.
  apply NoDup_dedup, String.eqb_eq.
Qed.

Lemma query2_groups_countries (g : graph) (age_lower age_upper : Z) :
  NoDup (map Query2.countries (Query2.groups g age_lower age_upper)).
Proof.
  unfold Query2.groups. rewrite map_map. simpl.
  rewrite <- (map_map fst (fun k => k)), map_id, group_by_keys.
  apply NoDup_dedup, String.eqb_eq.
Qed.

(** X1.  The table [run_query1] returns holds the cities with the lowest
    average age: it has min(5, number of cities with a match) rows, no city
    twice, and every city of the aggregation that is left out has an
    average age at least that of every city returned. *)
Theorem run_query1_lowest (s : Session) (country : string) (calls calls' : nat)
    (df : DataFrame Query1.row) :
  run_query1 s country calls (Returned (PyDataFrame df)) calls' ->
  length (rows df) = Nat.min 5 (length (Query1.groups (db s) country)) /\
  NoDup (map Query1.city (rows df)) /\
  forall r r', In r (rows df) -> In r' (Query1.groups (db s) country) ->
               ~ In r' (rows df) ->
               (Query1.averageAge r <= Query1.averageAge r')%Q.
Proof.
  intros H. apply run_query_returned in H. destruct H as (data & Ha & _ & E).
  injection E as ->. simpl. unfold Query1.response in Ha.
  split; [apply (order_by_limit_exact_length _ _ _ _ Ha)|]. split.
  - apply (order_by_limit_NoDup _ _ _ _ _ Ha), query1_groups_cities.
  - intros r r' Hr Hr' Hn. apply Qle_bool_iff.
    exact (order_by_limit_top _ _ _ _ Ha r r' Hr Hr' Hn).
Qed.

Lemma run_query1_lowest_witness :
  run_query1 demo_session "United States" 0 (Returned (PyDataFrame demo_answer1)) 1 /\
  length (rows demo_answer1) = Nat.min 5 (length (Query1.groups demo "United States")) /\
  NoDup (map Query1.city (rows demo_answer1)).
Proof.
  split; [exact demo_run_query1|].
  destruct (run_query1_lowest demo_session "United States" 0 1 demo_answer1
              demo_run_query1) as (H1 & H2 & _).
  split; [exact H1 | exact H2].
Defined.

(** X2.  The table [run_query2] returns holds the countries with the most
    persons: it has min(3, number of countries with a match) rows, no
    country twice, every count is positive, and every country of the
    aggregation that is left out has a count at most that of every country
    returned. *)
Theorem run_query2_highest (s : Session) (age_lower age_upper : Z)
    (calls calls' : nat) (df : DataFrame Query2.row) :
  run_query2 s age_lower age_upper calls (Returned (PyDataFrame df)) calls' ->
  length (rows df) =
    Nat.min 3 (length (Query2.groups (db s) age_lower age_upper)) /\
  NoDup (map Query2.countries (rows df)) /\
  (forall r, In r (rows df) -> 0 < Query2.personCounts r) /\
  forall r r', In r (rows df) ->
               In r' (Query2.groups (db s) age_lower age_upper) ->
               ~ In r' (rows df) ->
               Query2.personCounts r' <= Query2.personCounts r.
Proof.
  intros H. apply run_query_returned in H. destruct H as (data & Ha & _ & E).
  injection E as ->. simpl. unfold Query2.response in Ha.
  split; [apply (order_by_limit_exact_length _ _ _ _ Ha)|]. split; [|split].
  - apply (order_by_limit_NoDup _ _ _ _ _ Ha), query2_groups_countries.
  - intros r Hr. apply (order_by_limit_in _ _ _ _ Ha) in Hr.
    unfold Query2.groups in Hr. apply in_map_iff in Hr.
    destruct Hr as [[k grp] [<- Hg]]. simpl.
    apply (in_group_by _ _ String.eqb_eq) in Hg.
    destruct Hg as [_ (b & Hb & _)]. destruct grp; [destruct Hb | simpl; lia].
  - intros r r' Hr Hr' Hn. apply Nat.leb_le.
    exact (order_by_limit_top _ _ _ _ Ha r r' Hr Hr' Hn).
Qed.

Lemma run_query2_highest_witness :
  run_query2 demo_session 20 40 0 (Returned (PyDataFrame demo_answer2)) 1 /\
  length (rows demo_answer2) = Nat.min 3 (length (Query2.groups demo 20 40)) /\
  NoDup (map Query2.countries (rows demo_answer2)).
Proof.
  split; [exact demo_run_query2|].
  destruct (run_query2_highest demo_session 20 40 0 1 demo_answer2
              demo_run_query2) as (H1 & H2 & _).
  split; [exact H1 | exact H2].
Defined.

(** ** The average of query 1 *)

Lemma sumZ_bounds (lo hi : Z) (l : list Z) :
  (forall x, In x l -> (lo <= x <= hi)%Z) ->
  (lo * Z.of_nat (length l) <= sumZ l <= hi * Z.of_nat (length l))%Z.
Proof.
  induction l as [|x l IH]; intros H; [simpl; lia|].
  assert (Hx : (lo <= x <= hi)%Z) by (apply H; left; reflexivity).
  assert (Hl : (lo * Z.of_nat (length l) <= sumZ l <= hi * Z.of_nat (length l))%Z)
    by (apply IH; intros y Hy; apply H; right; exact Hy).
  change (sumZ (x :: l)) with (x + sumZ l)%Z.
  change (length (x :: l)) with (S (length l)). rewrite Nat2Z.inj_succ. lia.
Qed.

(** The average of a non-empty group lies between any bounds of its
    members. *)
Lemma avg_bounds (lo hi : Z) (l : list Z) :
  l <> [] -> (forall x, In x l -> (lo <= x <= hi)%Z) ->
  (inject_Z lo <= avg l)%Q /\ (avg l <= inject_Z hi)%Q.
Proof.
  intros Hne H. pose proof (sumZ_bounds lo hi l H) as Hb.
  assert (Hp : Z.pos (Pos.of_nat (length l)) = Z.of_nat (length l)).
  { destruct l as [|x l]; [congruence|]. simpl length.
    rewrite <- Pos.of_nat_succ, Zpos_P_of_succ_nat, Nat2Z.inj_succ. reflexivity. }
  unfold avg, Qle, inject_Z. simpl. rewrite Hp. lia.
Qed.

(** X3.  Each averageAge [run_query1] returns is the mean age over the
    matches of that city, of which there is at least one, and so lies
    between any two bounds on the ages of the persons of the dataset. *)
Theorem run_query1_average (s : Session) (country : string) (calls calls' : nat)
    (df : DataFrame Query1.row) (r : Query1.row) :
  run_query1 s country calls (Returned (PyDataFrame df)) calls' ->
  In r (rows df) ->
  let members := filter (fun b => String.eqb (Query1.c_city b) (Query1.city r))
                        (Query1.matches (db s) country) in
  members <> [] /\
  Query1.averageAge r =
    Qmake (sumZ (map Query1.p_age members)) (Pos.of_nat (length members)) /\
  forall lo hi,
    (forall p age gender,
       node_at (db s) p = Some (Person age gender) -> (lo <= age <= hi)%Z) ->
    (inject_Z lo <= Query1.averageAge r)%Q /\
    (Query1.averageAge r <= inject_Z hi)%Q.
Proof.
  intros H Hr. apply run_query_returned in H. destruct H as (data & Ha & _ & E).
  injection E as ->. simpl in Hr. unfold Query1.response in Ha.
  apply (order_by_limit_in _ _ _ _ Ha) in Hr.
  unfold Query1.groups in Hr. apply in_map_iff in Hr.
  destruct Hr as [[k grp] [<- Hg]]. simpl.
  apply (in_group_by _ _ String.eqb_eq) in Hg. destruct Hg as [-> (b & Hb & _)].
  assert (Hne : filter (fun r0 => String.eqb (Query1.c_city r0) k)
                       (Query1.matches (db s) country) <> [])
    by (intros E; rewrite E in Hb; destruct Hb).
  split; [exact Hne|]. split.
  - unfold avg. rewrite length_map. reflexivity.
  - intros lo hi Hages. apply avg_bounds.
    + intros E. apply map_eq_nil in E. contradiction.
    + intros x Hx. apply in_map_iff in Hx. destruct Hx as [b' [<- Hb']].
      apply filter_In in Hb'. destruct Hb' as [Hb' _].
      apply query1_matches_sound in Hb'.
      destruct Hb' as (gender & _ & Hp & _). eapply Hages. exact Hp.
Qed.

Lemma run_query1_average_witness :
  run_query1 demo_session "United States" 0 (Returned (PyDataFrame demo_answer1)) 1 /\
  In (Query1.mkRow "Miami" 35) (rows demo_answer1) /\
  (forall p age gender,
     node_at demo p = Some (Person age gender) -> (25 <= age <= 41)%Z) /\
  (inject_Z 25 <= 35)%Q /\ (35 <= inject_Z 41)%Q.
Proof.
  assert (Hin : In (Query1.mkRow "Miami" 35) (rows demo_answer1))
    by (right; left; reflexivity).
  assert (Hages : forall p age gender,
            node_at demo p = Some (Person age gender) -> (25 <= age <= 41)%Z).
  { intros p age gender Hp.
    do 14 (destruct p as [|p]; [simpl in Hp; try discriminate;
                                injection Hp as <- _; lia|]).
    destruct p; discriminate. }
  split; [exact demo_run_query1|]. split; [exact Hin|]. split; [exact Hages|].
  exact (proj2 (proj2 (run_query1_average demo_session "United States" 0 1
                         demo_answer1 _ demo_run_query1 Hin)) 25%Z 41%Z Hages).
Defined.

(** ** Parameters that match nothing *)

Lemma query2_matches_in_range (g : graph) (age_lower age_upper : Z)
    (b : Query2.binding) :
  In b (Query2.matches g age_lower age_upper) ->
  exists age gender,
    node_at g (Query2.p b) = Some (Person age gender) /\
    (age_lower <= age <= age_upper)%Z.
Proof.
  unfold Query2.matches. intros H.
  apply in_flat_map in H. destruct H as [p [_ H]].
  apply in_flat_map in H. destruct H as [[age gender] [Hp H]].
  apply in_flat_map in H. destruct H as [[r ci] [_ H]].
  apply in_flat_map in H. destruct H as [[c_city c_country] [_ H]].
  apply in_flat_map in H. destruct H as [[path co] [_ H]].
  apply in_flat_map in H. destruct H as [name [_ H]].
  apply in_when in H. destruct H as [Hb [<-|[]]]. simpl.
  apply in_person_at in Hp. exists age, gender. split; [exact Hp|].
  unfold age_between in Hb. apply andb_true_iff in Hb.
  rewrite !Z.leb_le in Hb. lia.
Qed.

Lemma query4_matches_in_range (g : graph) (country : string)
    (age_lower age_upper : Z) (interest : string) (b : Query4.binding) :
  In b (Query4.matches g country age_lower age_upper interest) ->
  exists age gender,
    node_at g (Query4.p b) = Some (Person age gender) /\
    (age_lower <= age <= age_upper)%Z.
Proof.
  unfold Query4.matches, Query4.matches_with, Query4.matches_state. intros H.
  apply in_flat_map in H. destruct H as [[[[p s] name] s_country] [H1 H2]].
  apply in_flat_map in H2. destruct H2 as [[r i] [_ H2]].
  apply in_flat_map in H2. destruct H2 as [i_interest [_ H2]].
  apply in_when in H2. destruct H2 as [_ [<-|[]]]. simpl.
  apply in_flat_map in H1. destruct H1 as [p' [_ H1]].
  apply in_flat_map in H1. destruct H1 as [[age gender] [Hp H1]].
  apply in_flat_map in H1. destruct H1 as [[r1 c] [_ H1]].
  apply in_flat_map in H1. destruct H1 as [[c_city c_country] [_ H1]].
  apply in_flat_map in H1. destruct H1 as [[r2 s'] [_ H1]].
  apply in_flat_map in H1. destruct H1 as [[name' s_country'] [_ H1]].
  apply in_when in H1. destruct H1 as [Hb [H1|[]]].
  injection H1 as <- _ _ _. apply in_person_at in Hp.
  exists age, gender. split; [exact Hp|].
  apply andb_true_iff in Hb. destruct Hb as [Hb _].
  unfold age_between in Hb. apply andb_true_iff in Hb.
  rewrite !Z.leb_le in Hb. lia.
Qed.

Lemma no_element_nil {A : Type} (l : list A) : (forall x, ~ In x l) -> l = [].
Proof.
  destruct l as [|x l]; [reflexivity|]. intros H.
  exfalso. apply (H x). left. reflexivity.
Qed.

(** X4.  An age range given the wrong way round matches nobody: with
    age_lower above age_upper a call of [run_query2] or [run_query4] that
    the driver does not fail raises [NoDataError]. *)
Theorem inverted_age_range_raises (s : Session) (age_lower age_upper : Z)
    (calls : nat) :
  (age_upper < age_lower)%Z -> fault s calls = None ->
  (forall o calls',
     run_query2 s age_lower age_upper calls o calls' -> o = Raised NoDataError) /\
  (forall country interest o calls',
     run_query4 s country age_lower age_upper interest calls o calls' ->
     o = Raised NoDataError).
Proof.
  intros Hlt Hf. split.
  - intros o calls'. apply (run_query_empty _ _ _ _ _ Hf).
    intros data Ha. apply (order_by_limit_nil _ _ _ _ Ha).
    apply query2_groups_nil, no_element_nil. intros b Hb.
    apply query2_matches_in_range in Hb. destruct Hb as (age & _ & _ & Hb). lia.
  - intros country interest o calls'. apply (run_query_empty _ _ _ _ _ Hf).
    intros data Ha. apply (order_by_limit_nil _ _ _ _ Ha).
    apply query4_groups_nil, no_element_nil. intros b Hb.
    apply query4_matches_in_range in Hb. destruct Hb as (age & _ & _ & Hb). lia.
Qed.

Lemma inverted_age_range_raises_witness :
  (30 < 40)%Z /\ fault demo_session 0 = None /\
  forall o calls', run_query2 demo_session 40 30 0 o calls' -> o = Raised NoDataError.
Proof.
  assert (H : (30 < 40)%Z) by lia.
  split; [exact H|]. split; [reflexivity|].
  exact (proj1 (inverted_age_range_raises demo_session 40 30 0 H eq_refl)).
Defined.

Lemma sum_nat_le {A : Type} (f h : A -> nat) (l : list A) :
  (forall x, In x l -> f x <= h x) -> sum_nat (map f l) <= sum_nat (map h l).
Proof.
  induction l as [|x l IH]; intros H; simpl; [lia|].
  pose proof (H x (or_introl eq_refl)).
  assert (sum_nat (map f l) <= sum_nat (map h l))
    by (apply IH; intros y Hy; apply H; right; exact Hy).
  lia.
Qed.

(** X5.  Widening the age range never loses a match of query 2: the counts
    of all countries add up to at least as much for the wider range. *)
Theorem query2_range_monotone (g : graph) (lo hi lo' hi' : Z) :
  (lo' <= lo)%Z -> (hi <= hi')%Z ->
  total_personCounts g lo hi <= total_personCounts g lo' hi'.
Proof.
  intros Hlo Hhi. rewrite !total_personCounts_matches, !query2_matches_per_person.
  apply sum_nat_le. intros p _. unfold in_age_range.
  destruct (node_at g p) as [[age gender| | | |]|]; try lia.
  unfold age_between.
  destruct ((lo <=? age)%Z && (age <=? hi)%Z) eqn:E; [|lia].
  apply andb_true_iff in E. rewrite !Z.leb_le in E.
  assert (E' : ((lo' <=? age)%Z && (age <=? hi')%Z) = true)
    by (apply andb_true_iff; rewrite !Z.leb_le; lia).
  rewrite E'. lia.
Qed.

Lemma query2_range_monotone_witness :
  (20 <= 30)%Z /\ (30 <= 40)%Z /\
  total_personCounts demo 30 30 <= total_personCounts demo 20 40.
Proof.
  assert (H1 : (20 <= 30)%Z) by lia. assert (H2 : (30 <= 40)%Z) by lia.
  split; [exact H1|]. split; [exact H2|].
  exact (query2_range_monotone demo 30 30 20 40 H1 H2).
Defined.

Lemma query4_matches_state_node (g : graph) (country : string)
    (age_lower age_upper : Z) (interest : string) (b : Query4.binding) :
  In b (Query4.matches g country age_lower age_upper interest) ->
  node_at g (Query4.s b) = Some (State (Query4.s_state b) country).
Proof.
  unfold Query4.matches, Query4.matches_with, Query4.matches_state. intros H.
  apply in_flat_map in H. destruct H as [[[[p s] name] s_country] [H1 H2]].
  apply in_flat_map in H2. destruct H2 as [[r i] [_ H2]].
  apply in_flat_map in H2. destruct H2 as [i_interest [_ H2]].
  apply in_when in H2. destruct H2 as [_ [<-|[]]]. simpl.
  apply in_flat_map in H1. destruct H1 as [p' [_ H1]].
  apply in_flat_map in H1. destruct H1 as [[age gender] [_ H1]].
  apply in_flat_map in H1. destruct H1 as [[r1 c] [_ H1]].
  apply in_flat_map in H1. destruct H1 as [[c_city c_country] [_ H1]].
  apply in_flat_map in H1. destruct H1 as [[r2 s'] [_ H1]].
  apply in_flat_map in H1. destruct H1 as [[name' s_country'] [Hs H1]].
  apply in_when in H1. destruct H1 as [Hb [H1|[]]].
  injection H1 as _ <- <- <-. apply in_state_at in Hs.
  apply andb_true_iff in Hb. destruct Hb as [_ Hb].
  apply String.eqb_eq in Hb. congruence.
Qed.

(** X6.  The country parameter is matched against the stored strings as it
    is, by [run_query1] against the [Country] nodes and by [run_query4]
    against the country property of the [State] nodes: when no such node
    carries exactly that string, a call the driver does not fail raises
    [NoDataError]. *)
Theorem unknown_country_raises (s : Session) (country : string) (calls : nat) :
  fault s calls = None ->
  ((forall n name, node_at (db s) n = Some (Country name) -> name <> country) ->
   forall o calls', run_query1 s country calls o calls' -> o = Raised NoDataError) /\
  ((forall n name s_country,
      node_at (db s) n = Some (State name s_country) -> s_country <> country) ->
   forall age_lower age_upper interest o calls',
     run_query4 s country age_lower age_upper interest calls o calls' ->
     o = Raised NoDataError).
Proof.
  intros Hf. split.
  - intros Hn o calls'. apply (run_query_empty _ _ _ _ _ Hf).
    intros data Ha. apply (order_by_limit_nil _ _ _ _ Ha).
    apply query1_groups_nil, no_element_nil. intros b Hb.
    apply query1_matches_sound in Hb. destruct Hb as (_ & _ & _ & _ & Hco & _).
    exact (Hn _ _ Hco eq_refl).
  - intros Hn age_lower age_upper interest o calls'.
    apply (run_query_empty _ _ _ _ _ Hf).
    intros data Ha. apply (order_by_limit_nil _ _ _ _ Ha).
    apply query4_groups_nil, no_element_nil. intros b Hb.
    apply query4_matches_state_node in Hb. exact (Hn _ _ _ Hb eq_refl).
Qed.

Lemma unknown_country_raises_witness :
  fault demo_session 0 = None /\
  (forall n name, node_at demo n = Some (Country name) -> name <> "united states") /\
  forall o calls',
    run_query1 demo_session "united states" 0 o calls' -> o = Raised NoDataError.
Proof.
  assert (H : forall n name,
            node_at demo n = Some (Country name) -> name <> "united states").
  { intros n name Hn.
    do 14 (destruct n as [|n]; [simpl in Hn; try discriminate;
                                injection Hn as <-; discriminate|]).
    destruct n; discriminate. }
  split; [reflexivity|]. split; [exact H|].
  exact (proj1 (unknown_country_raises demo_session "united states" 0 eq_refl) H).
Defined.

Lemma query4_same_folding (lower : string -> string) (g : graph)
    (country : string) (age_lower age_upper : Z) (interest1 interest2 : string) :
  lower interest1 = lower interest2 ->
  Query4.matches_with lower g country age_lower age_upper interest1 =
  Query4.matches_with lower g country age_lower age_upper interest2.
Proof.
  intros Hi. unfold Query4.matches_with. rewrite Hi. reflexivity.
Qed.

(** X7.  [run_query4] is case-insensitive in its interest parameter:
    whatever the engine's letter folding [lower] is, and whatever the pairs
    of strings [same_case] it folds together, two interest strings equal up
    to letter case give the same outcomes. *)
Theorem run_query4_interest_case_insensitive (lower : string -> string)
    (same_case : string -> string -> Prop) (s : Session) (country : string)
    (age_lower age_upper : Z) (interest1 interest2 : string) :
  (forall a b, same_case a b -> lower a = lower b) ->
  same_case interest1 interest2 ->
  forall calls o calls',
    run_query4_with lower s country age_lower age_upper interest1 calls o calls' <->
    run_query4_with lower s country age_lower age_upper interest2 calls o calls'.
Proof.
  intros Hfold Hi calls o calls'. apply Hfold in Hi.
  unfold run_query4_with, Query4.response_with, Query4.groups_with.
  rewrite (query4_same_folding _ _ _ _ _ _ _ Hi). tauto.
Qed.

Lemma run_query4_interest_case_insensitive_witness :
  (forall a b, eq_upto_case a b -> tolower a = tolower b) /\
  eq_upto_case "PhotoGraphy" "photography" /\
  run_query4 demo_session "United States" 23 30 "PhotoGraphy" 0
             (Returned (PyDataFrame demo_answer4)) 1.
Proof.
  assert (Hfold : forall a b, eq_upto_case a b -> tolower a = tolower b)
    by (intros a b; apply eq_upto_case_tolower).
  assert (Hi : eq_upto_case "PhotoGraphy" "photography")
    by (apply eq_upto_case_tolower; reflexivity).
  split; [exact Hfold|]. split; [exact Hi|].
  exact (proj2 (run_query4_interest_case_insensitive tolower eq_upto_case
                  demo_session "United States" 23 30 "PhotoGraphy" "photography"
                  Hfold Hi 0 _ 1) demo_run_query4).
Defined.

(** ** What query 3 counts *)

Lemma sum_nat_flat_map {A B : Type} (f : B -> nat) (h : A -> list B) (l : list A) :
  sum_nat (map f (flat_map h l)) =
  sum_nat (map (fun x => sum_nat (map f (h x))) l).
Proof.
  induction l as [|x l IH]; simpl; [reflexivity|].
  rewrite map_app. rewrite <- IH.
  clear. induction (h x) as [|y t IHt]; simpl; [reflexivity|]. rewrite IHt. lia.
Qed.

Lemma sum_nat_when {B : Type} (f : B -> nat) (c : bool) (l : list B) :
  sum_nat (map f (when c ;; l)) = if c then sum_nat (map f l) else 0.
Proof. destruct c; simpl; [rewrite app_nil_r|]; reflexivity. Qed.

Lemma sum_nat_mul_r {A : Type} (f : A -> nat) (m : nat) (l : list A) :
  sum_nat (map (fun x => f x * m) l) = sum_nat (map f l) * m.
Proof. induction l as [|x l IH]; simpl; [reflexivity | rewrite IH; lia]. Qed.

Lemma query3_homes_length (g : graph) (city country : string) (p i : nat) :
  length ('(_, c) <- expand g (Some "LIVES_IN") [] p ;;
          '(c_city, c_country) <- city_at g c ;;
          when (String.eqb c_city city && String.eqb c_country country) ;;
          [(p, i, c)])
  = length (matching_homes g p city country).
Proof.
  unfold matching_homes. rewrite !length_flat_map_sum.
  apply sum_nat_ext. intros [r c] _. rewrite !length_flat_map_sum.
  apply sum_nat_ext. intros [c_city c_country] _. rewrite !length_when. reflexivity.
Qed.

Lemma query3_matches_weighted (g : graph) (gender city country interest : string) :
  length (Query3.matches g gender city country interest) =
  weighted_persons g gender city country interest.
Proof.
  unfold Query3.matches, Query3.matches_with, weighted_persons. rewrite length_flat_map_sum.
  rewrite (sum_nat_ext _ (fun x => length (matching_homes g (fst x) city country)))
    by (intros [p i] _; apply query3_homes_length).
  unfold Query3.matches_interest, Query3.matches_interest_with. rewrite sum_nat_flat_map.
  apply sum_nat_ext. intros p _. unfold has_gender, person_at.
  destruct (node_at g p) as [[age p_gender| | | |]|]; simpl; try reflexivity.
  rewrite app_nil_r, sum_nat_flat_map.
  unfold matching_interests. rewrite length_flat_map_sum.
  destruct (String.eqb (tolower p_gender) (tolower gender)).
  - rewrite <- sum_nat_mul_r. apply sum_nat_ext. intros [r i] _.
    rewrite sum_nat_flat_map, length_flat_map_sum, <- sum_nat_mul_r.
    apply sum_nat_ext. intros i_interest _.
    rewrite sum_nat_when, length_when, andb_true_r.
    destruct (String.eqb (tolower i_interest) (tolower interest)); simpl; lia.
  - rewrite <- (sum_nat_zero (expand g (Some "HAS_INTEREST") [] p)).
    apply sum_nat_ext. intros [r i] _. rewrite sum_nat_flat_map.
    rewrite <- (sum_nat_zero (interest_at g i)).
    apply sum_nat_ext. intros i_interest _.
    rewrite sum_nat_when, andb_false_r. reflexivity.
Qed.

(** X8.  The numPersons of [run_query3] counts matches, not persons: it is
    the sum, over the persons of the wanted gender, of the number of their
    matching interests times the number of their matching homes.  It is
    never below the number of distinct matching persons, and equal to it
    when no person has two matching interests or two matching homes. *)
Theorem run_query3_counts_matches (s : Session)
    (gender city country interest : string) (calls calls' : nat)
    (v : pyobject Query3.row) :
  run_query3 s gender city country interest calls (Returned v) calls' ->
  v = PyDataFrame (mkDataFrame
        [ Query3.mkRow (weighted_persons (db s) gender city country interest) ]) /\
  length (matching_persons (db s) gender city country interest)
    <= weighted_persons (db s) gender city country interest /\
  ((forall p, length (matching_interests (db s) p interest) <= 1 /\
              length (matching_homes (db s) p city country) <= 1) ->
   weighted_persons (db s) gender city country interest =
   length (matching_persons (db s) gender city country interest)).
Proof.
  intros H. unfold run_query3 in H. apply run_query_returned in H.
  destruct H as (data & <- & _ & ->). unfold Query3.response, Query3.response_with.
  rewrite query3_matches_weighted. split; [reflexivity|].
  unfold matching_persons, weighted_persons. rewrite <- sum_nat_indicator. split.
  - apply sum_nat_le. intros p _.
    destruct (has_gender (db s) p gender); simpl; [|lia].
    destruct (length (matching_interests (db s) p interest)); simpl; [lia|].
    destruct (length (matching_homes (db s) p city country)); simpl; lia.
  - intros Hone. apply sum_nat_ext. intros p _. specialize (Hone p).
    destruct (has_gender (db s) p gender); simpl; [|reflexivity].
    destruct (length (matching_interests (db s) p interest)) as [|[|n]];
      simpl; try lia.
    destruct (length (matching_homes (db s) p city country)) as [|[|m]];
      simpl; lia.
Qed.

Lemma run_query3_counts_matches_witness :
  run_query3 demo_session "male" "London" "United Kingdom" "fine dining" 0
             (Returned (PyDataFrame demo_answer3)) 1 /\
  (forall p, length (matching_interests demo p "fine dining") <= 1 /\
             length (matching_homes demo p "London" "United Kingdom") <= 1) /\
  weighted_persons demo "male" "London" "United Kingdom" "fine dining" =
  length (matching_persons demo "male" "London" "United Kingdom" "fine dining").
Proof.
  assert (H : forall p, length (matching_interests demo p "fine dining") <= 1 /\
                        length (matching_homes demo p "London" "United Kingdom") <= 1).
  { intros p. do 14 (destruct p as [|p]; [vm_compute; split; lia|]).
    unfold matching_interests, matching_homes, expand.
    split.
    - rewrite (no_element_nil _) ; [simpl; lia|].
      intros x Hx. apply in_flat_map in Hx. destruct Hx as [[r i] [Hx _]].
      apply in_flat_map in Hx. destruct Hx as [[j e] [Hin Hx]].
      apply in_when in Hx. destruct Hx as [Hb _].
      vm_compute in Hin. unfold step_ok in Hb.
      repeat (destruct Hin as [Hin|Hin]; [injection Hin as <- <-; discriminate|]).
      destruct Hin.
    - rewrite (no_element_nil _) ; [simpl; lia|].
      intros x Hx. apply in_flat_map in Hx. destruct Hx as [[r i] [Hx _]].
      apply in_flat_map in Hx. destruct Hx as [[j e] [Hin Hx]].
      apply in_when in Hx. destruct Hx as [Hb _].
      vm_compute in Hin. unfold step_ok in Hb.
      repeat (destruct Hin as [Hin|Hin]; [injection Hin as <- <-; discriminate|]).
      destruct Hin. }
  split; [exact demo_run_query3|]. split; [exact H|].
  exact (proj2 (proj2 (run_query3_counts_matches demo_session "male" "London"
                         "United Kingdom" "fine dining" 0 1 _ demo_run_query3)) H).
Defined.

(** ** Query 5 and the degrees of the persons *)

Lemma combine_seq_fst {A : Type} (l : list A) (k : nat) :
  map fst (combine (seq k (length l)) l) = seq k (length l).
Proof.
  revert k. induction l as [|x l IH]; intros k; simpl; [reflexivity|].
  rewrite IH. reflexivity.
Qed.

Lemma combine_seq_snd {A : Type} (l : list A) (k : nat) :
  map snd (combine (seq k (length l)) l) = l.
Proof.
  revert k. induction l as [|x l IH]; intros k; simpl; [reflexivity|].
  rewrite IH. reflexivity.
Qed.

Lemma sum_indexed_snd {A : Type} (f : A -> nat) (l : list A) :
  sum_nat (map (fun x => f (snd x)) (indexed l)) = sum_nat (map f l).
Proof.
  rewrite <- (map_map snd f). unfold indexed. rewrite combine_seq_snd. reflexivity.
Qed.

(** Among the relationships with their identities, a sum restricted to one
    identity has one term. *)
Lemma sum_indexed_diag {A : Type} (q : nat * A -> bool) (l : list A)
    (x : nat * A) :
  In x (indexed l) ->
  sum_nat (map (fun y => ind (Nat.eqb (fst x) (fst y) && q y)) (indexed l))
  = ind (q x).
Proof.
  intros Hx. destruct x as [i r]. simpl.
  rewrite (sum_nat_ext _ (fun y => ind (Nat.eqb i (fst y) && q (i, r)))).
  - rewrite <- (map_map fst (fun j => ind (Nat.eqb i j && q (i, r)))).
    unfold indexed. rewrite combine_seq_fst. apply sum_ind_eqb.
    intros _. apply in_indexed in Hx. apply nth_error_Some. congruence.
  - intros [j r'] Hy. simpl. destruct (Nat.eqb_spec i j) as [<-|_]; [|reflexivity].
    apply in_indexed in Hx, Hy. simpl. congruence.
Qed.

Lemma sum_nat_mul {A B : Type} (f : A -> nat) (h : B -> nat)
    (l1 : list A) (l2 : list B) :
  sum_nat (map f l1) * sum_nat (map h l2) =
  sum_nat (map (fun a => sum_nat (map (fun b => f a * h b) l2)) l1).
Proof.
  rewrite <- sum_nat_mul_r. apply sum_nat_ext. intros a _.
  rewrite Nat.mul_comm, <- sum_nat_mul_r. apply sum_nat_ext. intros b _. lia.
Qed.

Lemma follows_person_tgt (g : graph) (r : rel) :
  follows g r = true -> tgt r < length (nodes g).
Proof.
  unfold follows. intros H. apply andb_true_iff in H. destruct H as [_ H].
  apply is_person_node. exact H.
Qed.

(** Chains and loops together are the meeting pairs. *)
Lemma query5_chains_and_loops (g : graph) :
  length (Query5.matches g) + follows_loops g =
  sum_nat (map (fun r => sum_nat (map (fun r' => ind (meets g r r')) (rels g)))
               (rels g)).
Proof.
  rewrite query5_counts_chains. unfold follows_chains, follows_loops.
  rewrite length_filter_list_prod, <- sum_nat_indicator.
  rewrite <- (sum_indexed_snd
                (fun r => sum_nat (map (fun r' => ind (meets g r r')) (rels g)))).
  rewrite <- (sum_indexed_snd
                (fun r => if follows g r && Nat.eqb (tgt r) (src r) then 1 else 0)).
  rewrite <- sum_nat_add. apply sum_nat_ext. intros x Hx. simpl.
  rewrite <- (sum_indexed_snd (fun r' => ind (meets g (snd x) r'))).
  replace (if follows g (snd x) && Nat.eqb (tgt (snd x)) (src (snd x))
           then 1 else 0)
    with (ind (meets g (snd x) (snd x)))
    by (unfold meets, ind; destruct (follows g (snd x)); reflexivity).
  pose proof (sum_indexed_diag (fun y => meets g (snd x) (snd y)) _ x Hx) as Hd.
  simpl in Hd. rewrite <- Hd, <- sum_nat_add.
  apply sum_nat_ext. intros y _. unfold is_chain, meets.
  destruct (Nat.eqb (fst x) (fst y)), (follows g (snd x)), (follows g (snd y)),
    (Nat.eqb (tgt (snd x)) (src (snd y))); reflexivity.
Qed.

(** X9.  The numPaths of query 5 is given by the degrees: over all persons,
    the number of [FOLLOWS] relationships arriving times the number leaving,
    less the number of [FOLLOWS] loops (a loop is never followed by
    itself). *)
Theorem query5_degrees (g : graph) :
  length (Query5.matches g) + follows_loops g =
  sum_nat (map (fun b => in_follows g b * out_follows g b) (node_ids g)).
Proof.
  rewrite query5_chains_and_loops. symmetry.
  rewrite (sum_nat_ext _
    (fun b => sum_nat (map (fun r => sum_nat (map (fun r' =>
       ind (follows g r && Nat.eqb (tgt r) b)
       * ind (follows g r' && Nat.eqb (src r') b)) (rels g))) (rels g)))).
  - rewrite sum_nat_swap. apply sum_nat_ext. intros r _.
    rewrite sum_nat_swap. apply sum_nat_ext. intros r' _.
    rewrite (sum_nat_ext _ (fun b => ind (Nat.eqb (tgt r) b && meets g r r'))).
    + apply sum_ind_eqb. unfold meets. intros H.
      apply andb_true_iff in H. destruct H as [H _].
      apply andb_true_iff in H. destruct H as [H _].
      apply follows_person_tgt. exact H.
    + intros b _. unfold meets.
      destruct (Nat.eqb_spec (tgt r) b) as [<-|_].
      * rewrite (Nat.eqb_sym (src r') (tgt r)).
        destruct (follows g r), (follows g r'), (Nat.eqb (tgt r) (src r'));
          reflexivity.
      * rewrite andb_false_r. reflexivity.
  - intros b _. unfold in_follows, out_follows.
    rewrite <- !sum_nat_indicator. apply sum_nat_mul.
Qed.

(** Without [FOLLOWS] loops the numPaths a returning [run_query5] reports
    is the sum over all persons of in-degree times out-degree in the
    [FOLLOWS] relation. *)
Theorem run_query5_degrees (s : Session) (calls calls' : nat)
    (v : pyobject Query5.row) :
  (forall r, In r (rels (db s)) -> rtype r = "FOLLOWS" -> src r <> tgt r) ->
  run_query5 s calls (Returned v) calls' ->
  v = PyDataFrame (mkDataFrame
        [ Query5.mkRow (sum_nat (map (fun b => in_follows (db s) b
                                               * out_follows (db s) b)
                                     (node_ids (db s)))) ]).
Proof.
  intros Hloop H. unfold run_query5 in H. apply run_query_returned in H.
  destruct H as (data & <- & _ & ->). unfold Query5.response.
  rewrite <- query5_degrees.
  assert (E : follows_loops (db s) = 0).
  { unfold follows_loops. rewrite filter_none; [reflexivity|].
    intros r Hr. unfold follows.
    destruct (String.eqb_spec (rtype r) "FOLLOWS") as [Ht|_]; [|reflexivity].
    destruct (Nat.eqb_spec (tgt r) (src r)) as [E|_];
      [|rewrite andb_false_r; reflexivity].
    exfalso. apply (Hloop r Hr Ht). congruence. }
  rewrite E, Nat.add_0_r. reflexivity.
Qed.

Lemma run_query5_degrees_witness :
  (forall r, In r (rels demo) -> rtype r = "FOLLOWS" -> src r <> tgt r) /\
  run_query5 demo_session 0 (Returned (PyDataFrame demo_answer5)) 1 /\
  PyDataFrame demo_answer5 =
  PyDataFrame (mkDataFrame
    [ Query5.mkRow (sum_nat (map (fun b => in_follows demo b * out_follows demo b)
                                 (node_ids demo))) ]).
Proof.
  assert (H : forall r, In r (rels demo) -> rtype r = "FOLLOWS" -> src r <> tgt r).
  { intros r Hr Ht. simpl in Hr.
    repeat (destruct Hr as [<-|Hr]; [try discriminate; simpl; lia|]).
    destruct Hr. }
  split; [exact H|]. split; [exact demo_run_query5|].
  exact (run_query5_degrees demo_session 0 1 _ H demo_run_query5).
Defined.

(** ** When [main] succeeds *)

Lemma order_by_limit_nil_iff {A : Type} (leb : A -> A -> bool) (n : nat)
    (l out : list A) :
  0 < n -> order_by_limit leb n l out -> (out = [] <-> l = []).
Proof.
  intros Hn Ha. pose proof (order_by_limit_exact_length _ _ _ _ Ha) as E.
  split; intros ->; simpl in E.
  - destruct l; [reflexivity | destruct n; simpl in E; [lia | discriminate]].
  - rewrite Nat.min_0_r in E. destruct out; [reflexivity | discriminate].
Qed.

Lemma query1_response_nil (g : graph) (country : string) (data : list Query1.row) :
  Query1.response g country data ->
  (data = [] <-> Query1.matches g country = []).
Proof.
  intros Ha. rewrite (order_by_limit_nil_iff _ _ _ _ (Nat.lt_0_succ _) Ha).
  unfold Query1.groups. split.
  - intros H. apply map_eq_nil in H. apply group_by_nil in H. exact H.
  - intros ->. reflexivity.
Qed.

Lemma query2_response_nil (g : graph) (age_lower age_upper : Z)
    (data : list Query2.row) :
  Query2.response g age_lower age_upper data ->
  (data = [] <-> Query2.matches g age_lower age_upper = []).
Proof.
  intros Ha. rewrite (order_by_limit_nil_iff _ _ _ _ (Nat.lt_0_succ _) Ha).
  unfold Query2.groups. split.
  - intros H. apply map_eq_nil in H. apply group_by_nil in H. exact H.
  - intros ->. reflexivity.
Qed.

Lemma query4_response_nil (g : graph) (country : string) (age_lower age_upper : Z)
    (interest : string) (data : list Query4.row) :
  Query4.response g country age_lower age_upper interest data ->
  (data = [] <-> Query4.matches g country age_lower age_upper interest = []).
Proof.
  intros Ha. rewrite (order_by_limit_nil_iff _ _ _ _ (Nat.lt_0_succ _) Ha).
  apply query4_groups_nil.
Qed.

(** A runner followed by the rest of the script, with the reason it stops
    or the response it goes on with. *)
Lemma bind_run_query_cases {R B : Type} (s : Session) (answers : list R -> Prop)
    (k : pyobject R -> M B) (calls : nat) (o : result B) (calls' : nat) :
  bind (run_query s answers) k calls o calls' ->
  (exists reason, fault s calls = Some reason /\
                  o = Raised (DriverError reason) /\ calls' = S calls) \/
  (fault s calls = None /\ answers [] /\
   o = Raised NoDataError /\ calls' = S calls) \/
  (fault s calls = None /\
   exists data, answers data /\ data <> [] /\
                k (PyDataFrame (mkDataFrame data)) (S calls) o calls').
Proof.
  intros (oa & c1 & H & Hk). apply run_query_iff in H. destruct H as [-> H].
  destruct (fault s calls) as [reason|].
  - subst oa. left. exists reason. tauto.
  - right. destruct H as (data & Ha & ->). destruct data as [|r data].
    + left. tauto.
    + right. split; [reflexivity|]. exists (r :: data).
      repeat split; auto. discriminate.
Qed.

Lemma main_outcome_status (s : Session) (o : result unit) (calls' : nat) :
  main s 0 o calls' ->
  (exit_status o = 0%Z <-> main_succeeds_on s) /\
  (exit_status o = 0%Z -> calls' = 5).
Proof.
  unfold main, run_query1, run_query2, run_query3, run_query4, run_query5.
  intros H.
  assert (Hfail : forall e, o = Raised e -> ~ main_succeeds_on s ->
            (exit_status o = 0%Z <-> main_succeeds_on s) /\
            (exit_status o = 0%Z -> calls' = 5)).
  { intros e -> Hn. simpl. split; [split; [discriminate | contradiction] | discriminate]. }
  apply bind_run_query_cases in H.
  destruct H as [(reason & Hf & Ho & _) | [(_ & Ha & Ho & _) | (Hf0 & d1 & Ha1 & Hn1 & H)]].
  { apply (Hfail _ Ho). intros (Hall & _). rewrite Hall in Hf by lia. discriminate. }
  { apply (Hfail _ Ho). intros (_ & Hm & _). apply Hm.
    apply (query1_response_nil _ _ _ Ha). reflexivity. }
  apply bind_run_query_cases in H.
  destruct H as [(reason & Hf & Ho & _) | [(_ & Ha & Ho & _) | (Hf1 & d2 & Ha2 & Hn2 & H)]].
  { apply (Hfail _ Ho). intros (Hall & _). rewrite Hall in Hf by lia. discriminate. }
  { apply (Hfail _ Ho). intros (_ & _ & Hm & _). apply Hm.
    apply (query2_response_nil _ _ _ _ Ha). reflexivity. }
  apply bind_run_query_cases in H.
  destruct H as [(reason & Hf & Ho & _) | [(_ & Ha & Ho & _) | (Hf2 & d3 & Ha3 & Hn3 & H)]].
  { apply (Hfail _ Ho). intros (Hall & _). rewrite Hall in Hf by lia. discriminate. }
  { discriminate Ha. }
  apply bind_run_query_cases in H.
  destruct H as [(reason & Hf & Ho & _) | [(_ & Ha & Ho & _) | (Hf3 & d4 & Ha4 & Hn4 & H)]].
  { apply (Hfail _ Ho). intros (Hall & _). rewrite Hall in Hf by lia. discriminate. }
  { apply (Hfail _ Ho). intros (_ & _ & _ & Hm). apply Hm.
    apply (query4_response_nil _ _ _ _ _ _ Ha). reflexivity. }
  apply bind_run_query_cases in H.
  destruct H as [(reason & Hf & Ho & _) | [(_ & Ha & Ho & _) | (Hf4 & d5 & Ha5 & Hn5 & H)]].
  { apply (Hfail _ Ho). intros (Hall & _). rewrite Hall in Hf by lia. discriminate. }
  { discriminate Ha. }
  destruct H as [-> ->]. simpl. split; [|reflexivity].
  split; [intros _ | reflexivity]. split; [|split; [|split]].
  - intros j Hj. destruct j as [|[|[|[|[|j]]]]]; try assumption. lia.
  - intros E. apply Hn1. apply (query1_response_nil _ _ _ Ha1). exact E.
  - intros E. apply Hn2. apply (query2_response_nil _ _ _ _ Ha2). exact E.
  - intros E. apply Hn4. apply (query4_response_nil _ _ _ _ _ _ Ha4). exact E.
Qed.

(** X10.  [main] ends with exit status 0 exactly when the driver fails none
    of its five calls and queries 1, 2 and 4 each have a match for the
    parameters [main] passes; under that condition it does return, and it
    has then made exactly five calls. *)
Theorem main_exit_status (s : Session) :
  (main_succeeds_on s -> main s 0 (Returned tt) 5) /\
  forall o calls',
    main s 0 o calls' ->
    (exit_status o = 0%Z <-> main_succeeds_on s) /\
    (exit_status o = 0%Z -> calls' = 5).
Proof.
  split; [|intros o calls'; apply main_outcome_status].
  intros Hs. pose proof (exec_main_sound s 0) as He.
  destruct (main_outcome_status s _ _ He) as [Hiff Hc].
  apply Hiff in Hs. specialize (Hc Hs).
  destruct (exec_main s 0) as [[[]|e] c]; simpl in *; [|discriminate].
  subst c. exact He.
Qed.

Lemma main_exit_status_witness :
  main_succeeds_on demo_session /\ main demo_session 0 (Returned tt) 5.
Proof.
  assert (Hs : main_succeeds_on demo_session).
  { split; [reflexivity|]. repeat split; vm_compute; discriminate. }
  split; [exact Hs|].
  exact (proj1 (main_exit_status demo_session) Hs).
Defined.

(** ** Output and clean-up *)

(** A runner with its print statements behaves as the runner without, and
    prints its headers and, when it returns, its result. *)
Lemma run_query_io_iff {R : Type} (n : nat) (sql : bool) (s : Session)
    (answers : list R -> Prop) (w : nat * list event)
    (o : result (pyobject R)) (w' : nat * list event) :
  run_query_io n sql s answers w o w' <->
  run_query s answers (fst w) o (fst w') /\
  snd w' = snd w ++ PrintQuery n :: (if sql then [PrintSql n] else [])
           ++ (match o with Returned _ => [PrintResult n] | Raised _ => [] end).
Proof.
  unfold run_query_io, run_query.
  destruct w as [c out], w' as [c' out']. simpl. split.
  - intros (o1 & w1 & [-> ->] & H). simpl in H.
    destruct H as (o2 & w2 & H2 & H).
    assert (E2 : o2 = Returned tt /\
                 w2 = (c, out ++ PrintQuery n :: (if sql then [PrintSql n] else []))).
    { destruct sql; destruct H2 as [-> ->]; split; simpl; try reflexivity.
      rewrite <- app_assoc. reflexivity. }
    clear H2. destruct E2 as [-> ->].
    destruct H as (o3 & [c3 out3] & [H3 E3] & H). simpl in H3, E3. subst out3.
    destruct o3 as [data|e].
    + destruct H as (o4 & [c4 out4] & [[-> E4] E4'] & H). simpl in E4, E4'.
      subst c4 out4.
      destruct (from_dicts data) as [df|e] eqn:Ef.
      * destruct H as (o5 & w5 & [-> ->] & [-> Hw]). simpl in Hw.
        injection Hw as -> ->. split.
        -- exists (Returned data), c3. split; [exact H3|].
           exists (Returned df), c3. rewrite Ef. unfold lift, ret. auto.
        -- rewrite <- !app_assoc. reflexivity.
      * destruct H as [-> Hw]. injection Hw as -> ->. split.
        -- exists (Returned data), c3. split; [exact H3|].
           exists (Raised e), c3. rewrite Ef. unfold lift. auto.
        -- rewrite app_nil_r. reflexivity.
    + destruct H as [-> Hw]. injection Hw as -> ->. split.
      * exists (Raised e), c3. auto.
      * rewrite app_nil_r. reflexivity.
  - intros [(oa & c1 & H1 & H) E].
    exists (Returned tt), (c, out ++ [PrintQuery n]). split; [split; reflexivity|].
    exists (Returned tt),
      (c, out ++ PrintQuery n :: (if sql then [PrintSql n] else [])).
    split.
    { destruct sql; split; simpl; try reflexivity.
      rewrite <- app_assoc. reflexivity. }
    destruct oa as [data|e].
    + exists (Returned data),
        (c1, out ++ PrintQuery n :: (if sql then [PrintSql n] else [])).
      split; [split; [exact H1 | reflexivity]|].
      destruct H as (ob & c2 & [-> ->] & H).
      exists (from_dicts data),
        (c1, out ++ PrintQuery n :: (if sql then [PrintSql n] else [])).
      split; [split; [split; reflexivity | reflexivity]|].
      destruct (from_dicts data) as [df|e].
      * destruct H as [-> ->].
        exists (Returned tt),
          (c1, (out ++ PrintQuery n :: (if sql then [PrintSql n] else []))
               ++ [PrintResult n]).
        split; [split; reflexivity|]. split; [reflexivity|].
        rewrite E, <- !app_assoc. reflexivity.
      * destruct H as [-> ->]. split; [reflexivity|].
        rewrite E, app_nil_r. reflexivity.
    + exists (Raised e),
        (c1, out ++ PrintQuery n :: (if sql then [PrintSql n] else [])).
      split; [split; [exact H1 | reflexivity]|]. destruct H as [-> ->].
      split; [reflexivity|]. rewrite E, app_nil_r. reflexivity.
Qed.

Lemma io_step {R B : Type} (n : nat) (sql : bool) (s : Session)
    (answers : list R -> Prop) (k : pyobject R -> IO B) (c : nat)
    (out : list event) (o : result B) (w'' : nat * list event) :
  io_bind (run_query_io n sql s answers) k (c, out) o w'' ->
  (exists e, o = Raised e /\ run_query s answers c (Raised e) (S c) /\
             w'' = (S c, out ++ PrintQuery n :: (if sql then [PrintSql n] else []) ++ [])) \/
  (exists v, run_query s answers c (Returned v) (S c) /\
             k v (S c, out ++ PrintQuery n :: (if sql then [PrintSql n] else [])
                          ++ [PrintResult n]) o w'').
Proof.
  intros (oa & [c1 out1] & H & Hk). apply run_query_io_iff in H.
  simpl in H. destruct H as [H E]. subst out1.
  assert (Hc : c1 = S c) by (apply run_query_iff in H; tauto). subst c1.
  destruct oa as [v|e].
  - right. exists v. auto.
  - left. exists e. destruct Hk as [-> ->]. auto.
Qed.

Lemma main_body_io_transcript (s : Session) (o : result unit)
    (w' : nat * list event) :
  main_body_io s (0, []) o w' ->
  main s 0 o (fst w') /\
  ((o = Returned tt /\ w' = (5, transcript 5 false)) \/
   (exists e k, k < 5 /\ o = Raised e /\ w' = (S k, transcript k true))).
Proof.
  unfold main_body_io, run_query1_io, run_query2_io, run_query3_io,
    run_query4_io, run_query5_io, main, run_query1, run_query2, run_query3,
    run_query4, run_query5.
  intros H.
  apply io_step in H. destruct H as [(e & -> & H1 & ->) | (v1 & H1 & H)].
  { split; [exists (Raised e), 1; auto|]. right. exists e, 0. split; [lia|]. auto. }
  apply io_step in H. destruct H as [(e & -> & H2 & ->) | (v2 & H2 & H)].
  { split; [exists (Returned v1), 1; split; [exact H1|];
            exists (Raised e), 2; auto|].
    right. exists e, 1. split; [lia|]. auto. }
  apply io_step in H. destruct H as [(e & -> & H3 & ->) | (v3 & H3 & H)].
  { split; [exists (Returned v1), 1; split; [exact H1|];
            exists (Returned v2), 2; split; [exact H2|];
            exists (Raised e), 3; auto|].
    right. exists e, 2. split; [lia|]. auto. }
  apply io_step in H. destruct H as [(e & -> & H4 & ->) | (v4 & H4 & H)].
  { split; [exists (Returned v1), 1; split; [exact H1|];
            exists (Returned v2), 2; split; [exact H2|];
            exists (Returned v3), 3; split; [exact H3|];
            exists (Raised e), 4; auto|].
    right. exists e, 3. split; [lia|]. auto. }
  apply io_step in H. destruct H as [(e & -> & H5 & ->) | (v5 & H5 & H)].
  { split; [exists (Returned v1), 1; split; [exact H1|];
            exists (Returned v2), 2; split; [exact H2|];
            exists (Returned v3), 3; split; [exact H3|];
            exists (Returned v4), 4; split; [exact H4|];
            exists (Raised e), 5; auto|].
    right. exists e, 4. split; [lia|]. auto. }
  destruct H as [-> ->].
  split; [exists (Returned v1), 1; split; [exact H1|];
          exists (Returned v2), 2; split; [exact H2|];
          exists (Returned v3), 3; split; [exact H3|];
          exists (Returned v4), 4; split; [exact H4|];
          exists (Returned v5), 5; split; [exact H5|]; split; reflexivity|].
  left. auto.
Qed.

(** X11.  Whatever happens, [main] ends by printing the elapsed time, then
    closing the session, then the driver.  Before that it has printed, for
    every query that returned, its headers and its result, and for the query
    that raised only its headers: the headers of a query come before its
    driver call, and no result line follows a failure.  Outcome and number
    of driver calls are those of the script without its print statements. *)
Theorem main_io_transcript (s : Session) (o : result unit)
    (w' : nat * list event) :
  main_io s (0, []) o w' ->
  main s 0 o (fst w') /\
  ((o = Returned tt /\ w' = (5, transcript 5 false ++ closing)) \/
   (exists e k, k < 5 /\ o = Raised e /\
                w' = (S k, transcript k true ++ closing))).
Proof.
  unfold main_io, with_exit.
  intros (w1 & (w2 & (w3 & H & ->) & ->) & ->). simpl.
  apply main_body_io_transcript in H. destruct H as [Hm H].
  split; [exact Hm|]. unfold closing.
  destruct H as [[-> ->] | (e & k & Hk & -> & ->)].
  - left. split; [reflexivity|]. simpl. reflexivity.
  - right. exists e, k. split; [exact Hk|]. split; [reflexivity|]. simpl.
    rewrite <- !app_assoc. reflexivity.
Qed.

Lemma io_step_intro {R B : Type} (n : nat) (sql : bool) (s : Session)
    (answers : list R -> Prop) (k : pyobject R -> M B) (kio : pyobject R -> IO B)
    (c : nat) (out : list event) (o : result B) (c' : nat) :
  (forall v c1 out1, k v c1 o c' -> exists out', kio v (c1, out1) o (c', out')) ->
  bind (run_query s answers) k c o c' ->
  exists out', io_bind (run_query_io n sql s answers) kio (c, out) o (c', out').
Proof.
  intros Hk (oa & c1 & H & Hrest).
  pose proof (proj2 (run_query_io_iff n sql s answers (c, out) oa
    (c1, out ++ PrintQuery n :: (if sql then [PrintSql n] else [])
               ++ match oa with Returned _ => [PrintResult n] | Raised _ => [] end))
    (conj H eq_refl)) as Hio.
  destruct oa as [v|e].
  - destruct (Hk v c1 (out ++ PrintQuery n :: (if sql then [PrintSql n] else [])
                             ++ [PrintResult n]) Hrest) as [out' Hout].
    exists out'.
    eexists _, _. split; [exact Hio | exact Hout].
  - destruct Hrest as [-> ->]. eexists.
    eexists _, _. split; [exact Hio | split; reflexivity].
Qed.

(** The script with its print statements has an outcome for every outcome
    of the script without. *)
Lemma main_io_complete (s : Session) (o : result unit) (c' : nat) :
  main s 0 o c' -> exists out', main_io s (0, []) o (c', out').
Proof.
  intros H.
  assert (Hb : exists out', main_body_io s (0, []) o (c', out')).
  { revert H.
    unfold main, main_body_io, run_query1_io, run_query2_io, run_query3_io,
      run_query4_io, run_query5_io, run_query1, run_query2, run_query3,
      run_query4, run_query5.
    apply io_step_intro. intros _ c1 out1.
    apply io_step_intro. intros _ c2 out2.
    apply io_step_intro. intros _ c3 out3.
    apply io_step_intro. intros _ c4 out4.
    apply io_step_intro. intros _ c5 out5.
    intros [-> ->]. exists out5. split; reflexivity. }
  destruct Hb as [out' Hb]. unfold main_io, with_exit.
  exists (((out' ++ [PrintElapsed]) ++ [CloseSession]) ++ [CloseDriver]).
  exists (c', (out' ++ [PrintElapsed]) ++ [CloseSession]). split; [|reflexivity].
  exists (c', out' ++ [PrintElapsed]). split; [|reflexivity].
  exists (c', out'). split; [exact Hb | reflexivity].
Qed.

Lemma main_io_transcript_witness :
  exists w',
    main_io flaky_session (0, []) (Raised (DriverError "connection lost")) w' /\
    w' = (3, [ PrintQuery 1; PrintSql 1; PrintResult 1;
               PrintQuery 2; PrintSql 2; PrintResult 2;
               PrintQuery 3;
               PrintElapsed; CloseSession; CloseDriver ]).
Proof.
  assert (Hm : main flaky_session 0 (Raised (DriverError "connection lost")) 3)
    by exact (exec_main_sound flaky_session 0).
  destruct (main_io_complete _ _ _ Hm) as [out' Hio].
  exists (3, out'). split; [exact Hio|].
  destruct (main_io_transcript _ _ _ Hio) as [_ [[Hr _] | (e & k & Hk & _ & Hw)]];
    [discriminate|].
  injection Hw as <- ->. reflexivity.
Defined.
